(** * The JSON explorer and the LCR/PGR calculator of sdg_ladm

    A shallow embedding of [src/app/explorer/page.tsx] (the record store,
    the filter, the edit overlay and the other handlers of [ExplorerPage])
    and of [computeRates] and [sumArea] in [src/app/demo-1131/page.tsx].

    Modelling conventions.
    - A JavaScript number is an IEEE 754 binary64 value: Rocq's primitive
      [float].  The runtime's [Number::toString], [Math.log],
      [String.prototype.toLowerCase] and the text of its built-in functions
      are not code of the repository: they are parameters
      ([Number_toString], [Math_log], [toLowerCase], [Function_toString]).
    - A JavaScript string is a Rocq [string] that holds its text.
    - A JSON object is the list of its own properties in the order in which
      [Object.keys] and [JSON.stringify] enumerate them.  [get] reads an
      own property of a row.  The filter reads [r[key]] at every known
      field and every filtered column, whether the row has the field or
      not: there the read is [read], which finds the members a row inherits
      from [Object.prototype] as well.  The two objects the page uses as
      maps from field names to flags, [columnExactMatch] and
      [visibleColumns], are read and assigned as JavaScript does it,
      inherited members included ([read_flag], [assign_flag]).
    - The React state of [ExplorerPage] is a record; an event handler is a
      function from state to state, its [setX] calls applied in order. *)

From Stdlib Require Import ZArith String Ascii List Floats.
From stdpp Require Import gmap strings list fin_maps pretty.

Local Open Scope string_scope.

(** ** JavaScript strings *)

Module JsString.

Definition lower_ascii (c : ascii) : ascii :=
  let n := N_of_ascii c in
  if ((65 <=? n) && (n <=? 90))%N then ascii_of_N (n + 32) else c.

(** Lower case on the letters [A]-[Z], every other character kept: what
    [s.toLowerCase()] is on ASCII text.  The worked examples use it. *)
Fixpoint ascii_toLowerCase (s : string) : string :=
  match s with
  | EmptyString => EmptyString
  | String c s' => String (lower_ascii c) (ascii_toLowerCase s')
  end.

(** [s.startsWith(sub)] *)
Fixpoint startsWith (s sub : string) {struct sub} : bool :=
  match sub, s with
  | EmptyString, _ => true
  | String _ _, EmptyString => false
  | String a sub', String b s' => Ascii.eqb a b && startsWith s' sub'
  end.

(** [s.includes(sub)]: [sub] starts at some position of [s]. *)
Fixpoint includes (s sub : string) : bool :=
  startsWith s sub ||
  match s with
  | EmptyString => false
  | String _ s' => includes s' sub
  end.

(** [s === t] on strings *)
Definition eqb (s t : string) : bool := bool_decide (s = t).

(** A string is truthy when it is not empty. *)
Definition nonempty (s : string) : bool :=
  match s with EmptyString => false | String _ _ => true end.

End JsString.

(** [String.prototype.toLowerCase], the runtime's case mapping of a text. *)
Class JsLowerCase := toLowerCase : string -> string.

(** ** Plain objects used as maps from names to flags

    [columnExactMatch] and [visibleColumns] are objects whose prototype is
    [Object.prototype]: a read of a name they have no entry for finds the
    member of that name in the prototype, a function or, for [__proto__],
    the prototype itself, all of them truthy. *)

Definition Object_prototype_names : list string :=
  ["constructor"; "__defineGetter__"; "__defineSetter__"; "hasOwnProperty";
   "__lookupGetter__"; "__lookupSetter__"; "isPrototypeOf";
   "propertyIsEnumerable"; "toString"; "valueOf"; "__proto__";
   "toLocaleString"].

Definition inherited (key : string) : bool :=
  bool_decide (key ∈ Object_prototype_names).

(** The truthiness of [flags[key]], as [flags[key] || false] and
    [!flags[key]] take it. *)
Definition read_flag (flags : gmap string bool) (key : string) : bool :=
  match flags !! key with
  | Some b => b
  | None => inherited key
  end.

(** The assignment [flags[key] = b]: on the name [__proto__] it runs the
    setter of [Object.prototype], which ignores a boolean, and no entry is
    made. *)
Definition assign_flag (key : string) (b : bool) (flags : gmap string bool)
  : gmap string bool :=
  if bool_decide (key = "__proto__") then flags else <[key := b]> flags.

(** ** JSON values *)

#[warnings="-register-all"]
Inductive json : Type :=
| JNull
| JBool (b : bool)
| JNum (n : float)
| JStr (s : string)
| JArr (items : list json)
| JObj (props : list (string * json)).

(** [JsonRecord = Record<string, any>]: the type is not checked at run time,
    a row is whatever JSON value the loaded array holds. *)
Definition JsonRecord : Type := json.

(** The own property [key] of a row: [None] when the row has none.  The
    rows of a collection of records are objects; the read of a property of
    another value (an index of an array or of a string, the [TypeError] on
    [null]) is outside the model and yields [None] here. *)
Fixpoint assoc (key : string) (props : list (string * json)) : option json :=
  match props with
  | [] => None
  | (k, v) :: rest => if JsString.eqb k key then Some v else assoc key rest
  end.

Definition get (r : JsonRecord) (key : string) : option json :=
  match r with
  | JObj props => assoc key props
  | _ => None
  end.

(** [String(f)] of the function that [Object.prototype] holds under a
    name: a text the runtime chooses. *)
Class JsFunctionText := Function_toString : string -> string.

(** What a row that is an object inherits under a name.  Under [__proto__]
    it is [Object.prototype] itself, an object without enumerable
    properties of its own; under the other names of [Object.prototype] a
    function, which is not an array and not of type object, and of which a
    reader that takes [String(value)] sees the text: it is stood for by
    that text. *)
Definition inherited_member `{JsFunctionText} (key : string) : option json :=
  if bool_decide (key = "__proto__") then Some (JObj [])
  else if inherited key then Some (JStr (Function_toString key))
  else None.

(** [r[key]] with the prototype chain: the own property, else the member
    inherited under that name. *)
Definition read `{JsFunctionText} (r : JsonRecord) (key : string)
  : option json :=
  match r with
  | JObj props =>
      match assoc key props with
      | Some v => Some v
      | None => inherited_member key
      end
  | _ => None
  end.


(** [Array.isArray(v)] *)
Definition isArray (v : json) : bool :=
  match v with JArr _ => true | _ => false end.

(** [typeof v === 'object' && v !== null] *)
Definition is_object_like (v : json) : bool :=
  match v with JArr _ | JObj _ => true | _ => false end.

(** [Object.keys(v)] for an object or an array. *)
Definition Object_keys (v : json) : list string :=
  match v with
  | JObj props => map fst props
  | JArr items => map (fun i : nat => pretty i) (seq 0 (length items))
  | _ => []
  end.

(** Truthiness, as the condition of an [if] coerces its value. *)
Definition truthy (v : option json) : bool :=
  match v with
  | None | Some JNull => false
  | Some (JBool b) => b
  | Some (JNum n) => negb (PrimFloat.eqb n 0 || PrimFloat.is_nan n)
  | Some (JStr s) => JsString.nonempty s
  | Some (JArr _) | Some (JObj _) => true
  end.

(** [Number::toString], the runtime's shortest round-trip printer. *)
Class JsNumberFormat := Number_toString : float -> string.

Section Conversions.

Context `{JsNumberFormat}.

(** [String(v)] of a JSON value.  An array prints as its elements joined
    by a comma, an object as the fixed text of [Object.prototype.toString]. *)
Fixpoint toString (v : json) : string :=
  match v with
  | JNull => "null"
  | JBool true => "true"
  | JBool false => "false"
  | JNum n => Number_toString n
  | JStr s => s
  | JArr items =>
      String.concat ","
        (map (fun x => match x with JNull => "" | _ => toString x end) items)
  | JObj _ => "[object Object]"
  end.

(** [String(v)] of a property read: [String(undefined)]. *)
Definition String_ (v : option json) : string :=
  match v with
  | None => "undefined"
  | Some x => toString x
  end.

(** [items.join(sep)]: [null] elements print as the empty string. *)
Definition join (sep : string) (items : list json) : string :=
  String.concat sep
    (map (fun x => match x with JNull => "" | _ => toString x end) items).

Definition quote_char : string := String (ascii_of_N 34) EmptyString.
Definition backslash : string := String (ascii_of_N 92) EmptyString.

Definition hex_digit (n : N) : ascii :=
  match n with
  | 0 => "0" | 1 => "1" | 2 => "2" | 3 => "3" | 4 => "4" | 5 => "5"
  | 6 => "6" | 7 => "7" | 8 => "8" | 9 => "9" | 10 => "a" | 11 => "b"
  | 12 => "c" | 13 => "d" | 14 => "e" | _ => "f"
  end%char%N.

(** The escape of one character in [QuoteJSONString]. *)
Definition escape_char (c : ascii) : string :=
  let n := N_of_ascii c in
  if (n =? 34)%N then backslash +:+ quote_char
  else if (n =? 92)%N then backslash +:+ backslash
  else if (n =? 8)%N then backslash +:+ "b"
  else if (n =? 12)%N then backslash +:+ "f"
  else if (n =? 10)%N then backslash +:+ "n"
  else if (n =? 13)%N then backslash +:+ "r"
  else if (n =? 9)%N then backslash +:+ "t"
  else if (n <? 32)%N then
    backslash +:+ "u00" +:+
    String (hex_digit (n / 16)) (String (hex_digit (n mod 16)) EmptyString)
  else String c EmptyString.

Fixpoint escape (s : string) : string :=
  match s with
  | EmptyString => EmptyString
  | String c s' => escape_char c +:+ escape s'
  end.

Definition quote (s : string) : string :=
  quote_char +:+ escape s +:+ quote_char.

Definition is_finite (n : float) : bool :=
  negb (PrimFloat.is_nan n || PrimFloat.is_infinity n).

(** [JSON.stringify(v)] without indentation. *)
Fixpoint JSON_stringify (v : json) : string :=
  match v with
  | JNull => "null"
  | JBool true => "true"
  | JBool false => "false"
  | JNum n => if is_finite n then Number_toString n else "null"
  | JStr s => quote s
  | JArr items => "[" +:+ String.concat "," (map JSON_stringify items) +:+ "]"
  | JObj props =>
      "{" +:+
      String.concat ","
        (map (fun kv => match kv with
                        | (k, x) => quote k +:+ ":" +:+ JSON_stringify x
                        end) props)
      +:+ "}"
  end.

End Conversions.

(** ** The explorer page: state and event handlers *)

Module Explorer.

(** The [useState] cells of [ExplorerPage]. *)
Record state : Type := State {
  rows : list JsonRecord;
  jsonData : list JsonRecord;
  jsonKeys : list string;
  q : string;
  columnFilters : gmap string string;
  columnExactMatch : gmap string bool;
  showSettings : bool;
  visibleColumns : gmap string bool;
  editingRowId : option string;
  editingData : JsonRecord;
  editedRows : gset string;
  editingEnabled : bool
}.

(** What the page holds when it mounts. *)
Definition initial : state :=
  State [] [] [] "" ∅ ∅ false ∅ None (JObj []) ∅ false.

Definition setRows (v : list JsonRecord) (st : state) : state :=
  State v (jsonData st) (jsonKeys st) (q st) (columnFilters st)
    (columnExactMatch st) (showSettings st) (visibleColumns st)
    (editingRowId st) (editingData st) (editedRows st) (editingEnabled st).

Definition setJsonData (v : list JsonRecord) (st : state) : state :=
  State (rows st) v (jsonKeys st) (q st) (columnFilters st)
    (columnExactMatch st) (showSettings st) (visibleColumns st)
    (editingRowId st) (editingData st) (editedRows st) (editingEnabled st).

Definition setJsonKeys (v : list string) (st : state) : state :=
  State (rows st) (jsonData st) v (q st) (columnFilters st)
    (columnExactMatch st) (showSettings st) (visibleColumns st)
    (editingRowId st) (editingData st) (editedRows st) (editingEnabled st).

Definition setQ (v : string) (st : state) : state :=
  State (rows st) (jsonData st) (jsonKeys st) v (columnFilters st)
    (columnExactMatch st) (showSettings st) (visibleColumns st)
    (editingRowId st) (editingData st) (editedRows st) (editingEnabled st).

Definition setColumnFilters (v : gmap string string) (st : state) : state :=
  State (rows st) (jsonData st) (jsonKeys st) (q st) v
    (columnExactMatch st) (showSettings st) (visibleColumns st)
    (editingRowId st) (editingData st) (editedRows st) (editingEnabled st).

Definition setColumnExactMatch (v : gmap string bool) (st : state) : state :=
  State (rows st) (jsonData st) (jsonKeys st) (q st) (columnFilters st)
    v (showSettings st) (visibleColumns st)
    (editingRowId st) (editingData st) (editedRows st) (editingEnabled st).

Definition setVisibleColumns (v : gmap string bool) (st : state) : state :=
  State (rows st) (jsonData st) (jsonKeys st) (q st) (columnFilters st)
    (columnExactMatch st) (showSettings st) v
    (editingRowId st) (editingData st) (editedRows st) (editingEnabled st).

Definition setEditingRowId (v : option string) (st : state) : state :=
  State (rows st) (jsonData st) (jsonKeys st) (q st) (columnFilters st)
    (columnExactMatch st) (showSettings st) (visibleColumns st)
    v (editingData st) (editedRows st) (editingEnabled st).

Definition setEditingData (v : JsonRecord) (st : state) : state :=
  State (rows st) (jsonData st) (jsonKeys st) (q st) (columnFilters st)
    (columnExactMatch st) (showSettings st) (visibleColumns st)
    (editingRowId st) v (editedRows st) (editingEnabled st).

Definition setEditedRows (v : gset string) (st : state) : state :=
  State (rows st) (jsonData st) (jsonKeys st) (q st) (columnFilters st)
    (columnExactMatch st) (showSettings st) (visibleColumns st)
    (editingRowId st) (editingData st) v (editingEnabled st).

(** [l.findIndex((x, i) => p(x, i))]: the first position whose element
    satisfies [p], [-1] when there is none. *)
Fixpoint findIndex_from {A : Type} (p : A -> Z -> bool) (i : Z) (l : list A) : Z :=
  match l with
  | [] => (-1)%Z
  | x :: l' => if p x i then i else findIndex_from p (i + 1)%Z l'
  end.

Definition findIndex {A : Type} (p : A -> Z -> bool) (l : list A) : Z :=
  findIndex_from p 0%Z l.

(** [{ ...rowData }]: a fresh object with the own enumerable properties of
    [rowData] (an array spreads to its index properties; a string row is
    outside the model, see [get]). *)
Definition spread (rowData : JsonRecord) : JsonRecord :=
  match rowData with
  | JObj props => JObj props
  | JArr items => JObj (zip (Object_keys (JArr items)) items)
  | _ => JObj []
  end.

(** The keys a [Set] collects, in insertion order. *)
Definition add_key (acc : list string) (key : string) : list string :=
  if bool_decide (key ∈ acc) then acc else acc ++ [key].

Definition allKeys (data : list JsonRecord) : list string :=
  foldl (fun acc item =>
           if is_object_like item then foldl add_key acc (Object_keys item)
           else acc) [] data.

Definition priorityColumns : list string :=
  ["indicator"; "title"; "tier"; "ladmLink"; "externalData"].

(** The default column visibility computed by [processJsonData]. *)
Definition defaultVisible (keys : list string) : gmap string bool :=
  let byPriority :=
    foldl (fun (m : gmap string bool) key =>
             assign_flag key (bool_decide (key ∈ priorityColumns)) m) ∅ keys in
  let visibleCount :=
    length (List.filter (fun b : bool => b) (map snd (map_to_list byPriority))) in
  if (visibleCount =? 0)%nat then
    foldl (fun (m : gmap string bool) (ik : nat * string) =>
             assign_flag ik.2 (bool_decide (ik.1 < 6)%nat) m)
          byPriority (imap pair keys)
  else byPriority.

(** [processJsonData(data)] *)
Definition processJsonData (data : list JsonRecord) (st : state) : state :=
  match data with
  | [] => setVisibleColumns ∅ (setRows [] (setJsonKeys [] (setJsonData [] st)))
  | _ :: _ =>
      let keys := allKeys data in
      setVisibleColumns (defaultVisible keys)
        (setRows data (setJsonKeys keys (setJsonData data st)))
  end.

(** The result of [JSON.parse] on the text of the chosen file. *)
Inductive parse_result : Type :=
| Parsed (jsonContent : json)
| SyntaxError.

Definition invalid_json_alert : string :=
  "Invalid JSON file. Please check the format.".

(** The [reader.onload] callback of [importJsonData]: the new state and the
    alerts shown to the user. *)
Definition reader_onload (res : parse_result) (st : state) : state * list string :=
  match res with
  | Parsed jsonContent =>
      let dataArray :=
        match jsonContent with
        | JArr items => items
        | _ => [jsonContent]
        end in
      (processJsonData dataArray st, [])
  | SyntaxError => (st, [invalid_json_alert])
  end.

(** [importJsonData(event)]: nothing happens when no file was chosen. *)
Definition importJsonData (file : option parse_result) (st : state)
  : state * list string :=
  match file with
  | None => (st, [])
  | Some res => reader_onload res st
  end.

(** The handler of the Clear Filters button. *)
Definition clearFilters (st : state) : state :=
  setEditingData (JObj [])
    (setEditingRowId None
       (setColumnExactMatch ∅ (setColumnFilters ∅ (setQ "" st)))).

(** The handler of the Reset Edits button, once the fixture is fetched. *)
Definition resetEdits (data : list JsonRecord) (st : state) : state :=
  setEditingData (JObj [])
    (setEditingRowId None (setEditedRows ∅ (processJsonData data st))).

(** [cancelEdit()] *)
Definition cancelEdit (st : state) : state :=
  setEditingData (JObj []) (setEditingRowId None st).

(** The collection [exportJsonData] serialises. *)
Definition dataToExport (st : state) : list JsonRecord :=
  match jsonData st with
  | [] => rows st
  | _ :: _ => jsonData st
  end.

Section WithNumberFormat.

Context `{JsNumberFormat} `{JsLowerCase} `{JsFunctionText}.

(** [getRowId(row, index)].  Each call site passes [index], a position or
    the [-1] of [findIndex]; the random suffix of the other branch is not
    modelled. *)
Definition getRowId (keys : list string) (row : JsonRecord) (index : Z) : string :=
  let baseId :=
    if truthy (get row "unsd_code") then String_ (get row "unsd_code")
    else if truthy (get row "id") then String_ (get row "id")
    else if truthy (get row "indicator") then String_ (get row "indicator")
    else
      match keys with
      | firstKey :: _ =>
          if JsString.nonempty firstKey then String_ (get row firstKey)
          else "unknown"
      | [] => "unknown"
      end in
  baseId +:+ "-" +:+ pretty index.

(** [startEditing(rowData)] *)
Definition startEditing (rowData : JsonRecord) (st : state) : state :=
  let index :=
    findIndex (fun r _ =>
                 JsString.eqb (JSON_stringify r) (JSON_stringify rowData))
              (rows st) in
  setEditingData (spread rowData)
    (setEditingRowId (Some (getRowId (jsonKeys st) rowData index)) st).

(** [saveEdit()] *)
Definition saveEdit (st : state) : state :=
  match editingRowId st with
  | None => st
  | Some id =>
      if JsString.nonempty id then
        let prev := rows st in
        let idx :=
          findIndex (fun r i => JsString.eqb (getRowId (jsonKeys st) r i) id)
                    prev in
        let st1 :=
          if (idx =? -1)%Z then st
          else
            let next := <[Z.to_nat idx := editingData st]> prev in
            setRows next (setJsonData next st) in
        let st2 := setEditedRows ({[id]} ∪ editedRows st1) st1 in
        setEditingData (JObj []) (setEditingRowId None st2)
      else st
  end.

(** The test of the global query on one row. *)
Definition okQ (st : state) (r : JsonRecord) : bool :=
  if JsString.nonempty (q st) then
    existsb
      (fun key =>
         match read r key with
         | None | Some JNull => false
         | Some (JArr items) =>
             JsString.includes (toLowerCase (join " " items))
                               (toLowerCase (q st))
         | Some (JObj props) =>
             JsString.includes
               (toLowerCase (JSON_stringify (JObj props)))
               (toLowerCase (q st))
         | Some value =>
             JsString.includes (toLowerCase (toString value))
                               (toLowerCase (q st))
         end)
      (jsonKeys st)
  else true.

(** The callback of [Object.entries(columnFilters).every]. *)
Definition okColumnFilter (st : state) (r : JsonRecord)
    (entry : string * string) : bool :=
  let (filterKey, filterValue) := entry in
  if negb (JsString.nonempty filterValue) then true
  else
    match read r filterKey with
    | None | Some JNull => false
    | Some value =>
        let filterValueLower := toLowerCase filterValue in
        let isExactMatchForThisColumn :=
          read_flag (columnExactMatch st) filterKey in
        match value with
        | JArr items =>
            let joinedValue := toLowerCase (join " " items) in
            if isExactMatchForThisColumn then
              existsb
                (fun item =>
                   JsString.eqb (toLowerCase (toString item))
                                filterValueLower)
                items
            else JsString.includes joinedValue filterValueLower
        | JObj _ =>
            let jsonValue := toLowerCase (JSON_stringify value) in
            if isExactMatchForThisColumn then
              JsString.eqb jsonValue filterValueLower
            else JsString.includes jsonValue filterValueLower
        | _ =>
            let stringValue := toLowerCase (toString value) in
            if isExactMatchForThisColumn then
              JsString.eqb stringValue filterValueLower
            else JsString.includes stringValue filterValueLower
        end
    end.

Definition okColumnFilters (st : state) (r : JsonRecord) : bool :=
  forallb (okColumnFilter st r) (map_to_list (columnFilters st)).

(** [filtered]: the rows the table shows. *)
Definition filtered (st : state) : list JsonRecord :=
  List.filter (fun r => okQ st r && okColumnFilters st r) (rows st).

End WithNumberFormat.

End Explorer.

(** ** The rate calculator of the 11.3.1 demo *)

(** [Math.log], the runtime's natural logarithm on doubles. *)
Class JsMath := Math_log : float -> float.

Module Rates.

Record PopPayload : Type := {
  t : float;
  t_n : float;
  population_t : float;
  population_tn : float
}.

(** [number | null] fields are [option float]. *)
Record AreaStats : Type := {
  area_t_m2 : float;
  area_tn_m2 : float;
  years : float;
  lcr : option float;
  pgr : option float;
  ratio : option float
}.

(** [Math.max(a, b)]: [NaN] when an argument is, and [+0] above [-0]. *)
Definition Math_max (a b : float) : float :=
  if PrimFloat.is_nan a || PrimFloat.is_nan b then nan
  else if (a <? b)%float then b
  else if (b <? a)%float then a
  else if PrimFloat.is_zero a && PrimFloat.get_sign a then b
  else a.

(** [x > 0] holds of the double [x]; it does not on [NaN]. *)
Definition strictly_positive (x : float) : Prop := (0 <? x)%float = true.

(** [computeRates(areaT, areaTN, pop)] *)
Definition computeRates `{JsMath} (areaT areaTN : float) (pop : PopPayload)
  : AreaStats :=
  let years := Math_max 1 (t_n pop - t pop)%float in
  let lcr :=
    if (0 <? areaT)%float && (0 <? areaTN)%float
    then Some (Math_log (areaTN / areaT) / years)%float
    else None in
  let pgr :=
    if (0 <? population_t pop)%float && (0 <? population_tn pop)%float
    then Some (Math_log (population_tn pop / population_t pop) / years)%float
    else None in
  let ratio :=
    match lcr, pgr with
    | Some l, Some p => if negb (p =? 0)%float then Some (l / p)%float else None
    | _, _ => None
    end in
  {| area_t_m2 := areaT; area_tn_m2 := areaTN; years := years;
     lcr := lcr; pgr := pgr; ratio := ratio |}.

End Rates.

(** ** Data of the worked examples *)

(** A printer for the worked examples: it agrees with [Number::toString]
    on the integers of magnitude up to [2^53], on [NaN] and on the
    infinities, and on no other number (it prints the integer part of the
    exact value of the double).  The examples print no number but zero. *)
Definition integer_format : JsNumberFormat := fun n =>
  match Prim2SF n with
  | S754_zero _ => "0"
  | S754_infinity s => if s then "-Infinity" else "Infinity"
  | S754_nan => "NaN"
  | S754_finite s m e =>
      (if s then "-" else "") +:+ pretty (Z.shiftl (Z.pos m) e)
  end.

(** The case mapping of the worked examples, whose texts are ASCII. *)
Definition ascii_lower_case : JsLowerCase := JsString.ascii_toLowerCase.

(** The text of a built-in function in the worked examples, with the name
    the function has: [Object] for the one under [constructor], the name of
    the member for the others. *)
Definition native_code_text : JsFunctionText := fun name =>
  "function "
  +:+ (if bool_decide (name = "constructor") then "Object" else name)
  +:+ "() { [native code] }".



(** A page with two rows, and an edit session opened on the first. *)
Definition row_a : JsonRecord := JObj [("id", JStr "a"); ("title", JStr "first")].
Definition row_b : JsonRecord := JObj [("id", JStr "b"); ("title", JStr "second")].
Definition row_z : JsonRecord := JObj [("id", JStr "z")].

Definition two_rows : Explorer.state :=
  Explorer.processJsonData [row_a; row_b] Explorer.initial.

Definition editing_a : Explorer.state :=
  @Explorer.startEditing integer_format row_a two_rows.

(** The first row saved, then opened again. *)
Definition edited_a : Explorer.state :=
  @Explorer.startEditing integer_format row_a
    (@Explorer.saveEdit integer_format editing_a).

(** Another file imported while that session is open. *)
Definition stale_session : Explorer.state :=
  (Explorer.importJsonData (Some (Explorer.Parsed (JArr [row_z]))) edited_a).1.


(** ** The predicates of the specification

    The matching rules of the specification, in its own words, to be
    compared with [okQ] and [okColumnFilter]. *)

Module FilterSpec.

Import Explorer.

Inductive match_mode : Type := Substring | Exact.

(** The mode a column is filtered in: exact when its toggle reads set. *)
Definition mode_of (st : state) (key : string) : match_mode :=
  if read_flag (columnExactMatch st) key then Exact else Substring.

Section WithLowerCase.

Context `{JsNumberFormat} `{JsLowerCase} `{JsFunctionText}.

(** [text] contains [pat], letter case ignored: the lower-case form of
    [pat] occurs in the lower-case form of [text]. *)
Definition contains_ci (text pat : string) : Prop :=
  exists pre post : string,
    toLowerCase text = pre +:+ toLowerCase pat +:+ post.

(** [text] equals [pat], letter case ignored: their lower-case forms are
    equal. *)
Definition equals_ci (text pat : string) : Prop :=
  toLowerCase text = toLowerCase pat.

Definition text_matches (mode : match_mode) (text pat : string) : Prop :=
  match mode with
  | Substring => contains_ci text pat
  | Exact => equals_ci text pat
  end.

(** The per-field predicate on the value read at a field ([None]:
    absent). *)
Definition field_matches (mode : match_mode) (pat : string)
    (value : option json) : Prop :=
  match value with
  | None | Some JNull => False
  | Some (JArr items) =>
      match mode with
      | Substring => contains_ci (join " " items) pat
      | Exact => exists item, item ∈ items /\ equals_ci (toString item) pat
      end
  | Some (JObj props) => text_matches mode (JSON_stringify (JObj props)) pat
  | Some scalar => text_matches mode (toString scalar) pat
  end.

(** The global query: inactive when empty, else some known field matches
    it in substring mode. *)
Definition global_query_passes (st : state) (r : JsonRecord)
  : Prop :=
  q st = "" \/
  exists key,
    key ∈ jsonKeys st /\ field_matches Substring (q st) (read r key).

(** Every configured per-field filter (a non-empty pattern) matches. *)
Definition field_filters_pass (st : state) (r : JsonRecord)
  : Prop :=
  forall key pat,
    columnFilters st !! key = Some pat -> pat <> "" ->
    field_matches (mode_of st key) pat (read r key).

(** Two facts about the case mapping of the runtime that some properties
    rest on.  A space separates what the mapping looks at: the lower-case
    form of two texts joined by a space is the two lower-case forms joined
    by a space. *)
Definition lower_case_keeps_spaces : Prop :=
  forall a b : string,
    toLowerCase (a +:+ " " +:+ b) = toLowerCase a +:+ " " +:+ toLowerCase b.

End WithLowerCase.



End FilterSpec.

(** ** The identity of a row, as a specification *)

Module IdentitySpec.

Import Explorer.







(** A text without the character [-]. *)
Fixpoint dash_free (s : string) : Prop :=
  match s with
  | EmptyString => True
  | String c s' => c <> "-"%char /\ dash_free s'
  end.

End IdentitySpec.

(** ** The other handlers of the explorer page *)

Module Handlers.

Import Explorer.

Definition setShowSettings (v : bool) (st : state) : state :=
  State (rows st) (jsonData st) (jsonKeys st) (q st) (columnFilters st)
    (columnExactMatch st) v (visibleColumns st)
    (editingRowId st) (editingData st) (editedRows st) (editingEnabled st).

Definition setEditingEnabled (v : bool) (st : state) : state :=
  State (rows st) (jsonData st) (jsonKeys st) (q st) (columnFilters st)
    (columnExactMatch st) (showSettings st) (visibleColumns st)
    (editingRowId st) (editingData st) (editedRows st) v.

(** The fetch of the fixture settles: [processJsonData] runs on the parsed
    array, and on the empty array when the fetch or the processing failed. *)
Definition fetchSettled (fetched : option (list JsonRecord)) (st : state) : state :=
  processJsonData (default [] fetched) st.

(** The filter input of a column:
    [setColumnFilters(prev => ({ ...prev, [key]: e.target.value }))]. *)
Definition columnFilterChange (key text : string) (st : state) : state :=
  setColumnFilters (<[key := text]> (columnFilters st)) st.

(** The exact-match button of a column:
    [setColumnExactMatch(prev => ({ ...prev, [key]: !prev[key] }))]. *)
Definition exactMatchClick (key : string) (st : state) : state :=
  setColumnExactMatch
    (<[key := negb (read_flag (columnExactMatch st) key)]>
       (columnExactMatch st)) st.

(** The Enable Editing checkbox of the settings. *)
Definition editingEnabledChange (checked : bool) (st : state) : state :=
  let st1 := setEditingEnabled checked st in
  if negb checked then setEditingData (JObj []) (setEditingRowId None st1)
  else st1.

(** The checkbox of a column in the settings. *)
Definition columnVisibleChange (key : string) (checked : bool) (st : state)
  : state :=
  setVisibleColumns (<[key := checked]> (visibleColumns st)) st.

(** The Show All button of the settings: [allVisible[key] = true] for
    each known field. *)
Definition showAllClick (st : state) : state :=
  setVisibleColumns
    (foldl (fun (m : gmap string bool) key => assign_flag key true m) ∅
           (jsonKeys st))
    st.

(** Whether the table shows a column: its cells and its header are left out
    when [!visibleColumns[key]]. *)
Definition isVisible (st : state) (key : string) : bool :=
  read_flag (visibleColumns st) key.

(** *** Writing a property of the draft *)

Definition digit_of (c : ascii) : option N :=
  let n := N_of_ascii c in
  if ((48 <=? n) && (n <=? 57))%N then Some (n - 48)%N else None.

Fixpoint parse_digits (acc : N) (s : string) : option N :=
  match s with
  | EmptyString => Some acc
  | String c s' =>
      match digit_of c with
      | Some d => parse_digits (10 * acc + d)%N s'
      | None => None
      end
  end.

(** A property key that is an array index: the canonical decimal text of an
    integer below [2^32 - 1].  Such keys are enumerated first, in numeric
    order, whenever they were created. *)
Definition array_index (key : string) : option N :=
  match key with
  | EmptyString => None
  | String c rest =>
      if Ascii.eqb c "0" && JsString.nonempty rest then None
      else
        match parse_digits 0 key with
        | Some n => if (n <=? 4294967294)%N then Some n else None
        | None => None
        end
  end.

(** The value of an existing property changes in place. *)
Fixpoint replace_prop (key : string) (v : json) (props : list (string * json))
  : list (string * json) :=
  match props with
  | [] => []
  | (k, x) :: rest =>
      if JsString.eqb k key then (k, v) :: rest
      else (k, x) :: replace_prop key v rest
  end.

(** A new array-index key goes before the first key that is a larger index
    or no index. *)
Fixpoint insert_index (n : N) (key : string) (v : json)
    (props : list (string * json)) : list (string * json) :=
  match props with
  | [] => [(key, v)]
  | (k, x) :: rest =>
      match array_index k with
      | Some m =>
          if (m <? n)%N then (k, x) :: insert_index n key v rest
          else (key, v) :: (k, x) :: rest
      | None => (key, v) :: (k, x) :: rest
      end
  end.

(** [obj[key] = v] on the property list of an object. *)
Definition set_prop (key : string) (v : json) (props : list (string * json))
  : list (string * json) :=
  if bool_decide (key ∈ map fst props) then replace_prop key v props
  else
    match array_index key with
    | Some n => insert_index n key v props
    | None => props ++ [(key, v)]
    end.

(** The own properties [{ ...v }] copies. *)
Definition own_props (v : JsonRecord) : list (string * json) :=
  match spread v with
  | JObj props => props
  | _ => []
  end.

(** [updateEditingField(key, value)]:
    [setEditingData(prev => ({ ...prev, [key]: value }))]. *)
Definition updateEditingField (key : string) (value : json) (st : state)
  : state :=
  setEditingData (JObj (set_prop key value (own_props (editingData st)))) st.

(** *** The input of an array field *)

(** [text.split(sep)] for a separator that is not empty: [skip] counts the
    characters of a matched separator still to pass, [cur] is the piece
    being read. *)
Fixpoint split_go (sep : string) (skip : nat) (cur : string) (s : string)
  : list string :=
  match s with
  | EmptyString => [cur]
  | String c rest =>
      match skip with
      | S k => split_go sep k cur rest
      | O =>
          if JsString.startsWith s sep
          then cur :: split_go sep (String.length sep - 1) EmptyString rest
          else split_go sep 0 (cur +:+ String c EmptyString) rest
      end
  end.

Definition split (sep : string) (s : string) : list string :=
  split_go sep 0 EmptyString s.

(** What the input of an array field shows: [value.join(', ')]. *)
Definition arrayInputValue `{JsNumberFormat} (items : list json) : string :=
  join ", " items.

(** What a change of that input stores:
    [updateEditingField(key, e.target.value.split(', ').filter(Boolean))]. *)
Definition arrayInputChange (key text : string) (st : state) : state :=
  updateEditingField key
    (JArr (map JStr (List.filter JsString.nonempty (split ", " text)))) st.

(** *** The identity the table gives a row *)

Section WithNumberFormat.

Context `{JsNumberFormat}.

(** [rows.findIndex(row => JSON.stringify(row) === JSON.stringify(r))] *)
Definition originalIndex (st : state) (r : JsonRecord) : Z :=
  findIndex (fun row _ => JsString.eqb (JSON_stringify row) (JSON_stringify r))
            (rows st).

Definition rowId (st : state) (r : JsonRecord) : string :=
  getRowId (jsonKeys st) r (originalIndex st r).

Definition isEditing (st : state) (r : JsonRecord) : bool :=
  bool_decide (editingRowId st = Some (rowId st r)).

Definition isEdited (st : state) (r : JsonRecord) : bool :=
  bool_decide (rowId st r ∈ editedRows st).

(** *** The page as a state machine *)

(** What the user and the network can do to the page. *)
Inductive event : Type :=
| FetchSettled (fetched : option (list JsonRecord))
| SearchChange (text : string)
| ColumnFilterChange (key text : string)
| ExactMatchClick (key : string)
| ClearFiltersClick
| ResetEditsFetched (data : list JsonRecord)
| ImportFile (file : option parse_result)
| EditClick (rowData : JsonRecord)
| FieldChange (key : string) (value : json)
| SaveClick
| CancelClick
| SettingsShown (shown : bool)
| EditingEnabledChange (checked : bool)
| ColumnVisibleChange (key : string) (checked : bool)
| ShowAllClick.

Definition handle (st : state) (e : event) : state :=
  match e with
  | FetchSettled fetched => fetchSettled fetched st
  | SearchChange text => setQ text st
  | ColumnFilterChange key text => columnFilterChange key text st
  | ExactMatchClick key => exactMatchClick key st
  | ClearFiltersClick => clearFilters st
  | ResetEditsFetched data => resetEdits data st
  | ImportFile file => (importJsonData file st).1
  | EditClick rowData => startEditing rowData st
  | FieldChange key value => updateEditingField key value st
  | SaveClick => saveEdit st
  | CancelClick => cancelEdit st
  | SettingsShown shown => setShowSettings shown st
  | EditingEnabledChange checked => editingEnabledChange checked st
  | ColumnVisibleChange key checked => columnVisibleChange key checked st
  | ShowAllClick => showAllClick st
  end.

(** The page after a sequence of events, from the mounted state. *)
Definition run (events : list event) : state := foldl handle initial events.

End WithNumberFormat.

(** The data to export are the rows, an open session has an identity that
    is not empty, and the draft is an object. *)
Definition page_invariant (st : state) : Prop :=
  jsonData st = rows st /\
  (forall id, editingRowId st = Some id -> id <> "") /\
  exists props, editingData st = JObj props.

(** The step [allKeys] folds over the items of a collection. *)
Definition collect_keys (acc : list string) (item : JsonRecord) : list string :=
  if is_object_like item then foldl add_key acc (Object_keys item) else acc.

End Handlers.

(** ** The areas of the 11.3.1 demo *)

(** [turf.area], the geodesic area of a feature: a library function. *)
Class TurfArea (Feature : Type) := turf_area : Feature -> float.

Module AreaPipeline.

Import Rates.

(** [sumArea(fc)]: [fc.features.reduce((acc, f) => acc + turf.area(f), 0)]. *)
Definition sumArea `{TurfArea Feature} (features : list Feature) : float :=
  foldl (fun acc f => (acc + turf_area f)%float) 0%float features.

(** The statistics the page shows for two feature collections. *)
Definition statsObj `{JsMath} `{TurfArea Feature}
    (tFC tnFC : list Feature) (pop : PopPayload) : AreaStats :=
  computeRates (sumArea tFC) (sumArea tnFC) pop.

End AreaPipeline.

(** ** Data of the further examples *)

(** The filter of the column [title] typed and deleted again. *)
Definition filter_typed_and_deleted : Explorer.state :=
  Handlers.columnFilterChange "title" ""
    (Handlers.columnFilterChange "title" "fir" two_rows).

(** A search for [first], and the column [title] in exact mode with the
    pattern [first]. *)
Definition searching_first : Explorer.state := Explorer.setQ "first" two_rows.

Definition exact_title_first : Explorer.state :=
  Handlers.exactMatchClick "title"
    (Handlers.columnFilterChange "title" "first" two_rows).

(** A row whose array field holds [null]. *)
Definition null_tag_row : JsonRecord := JObj [("tags", JArr [JNull])].

(** Two rows of which the first has a field named [constructor] and the
    second has not, and a search for [native]. *)
Definition row_constructor : JsonRecord := JObj [("constructor", JStr "x")].
Definition row_plain : JsonRecord := JObj [("a", JStr "y")].

Definition searching_native : Explorer.state :=
  Explorer.setQ "native"
    (Explorer.processJsonData [row_constructor; row_plain] Explorer.initial).

(** A page that holds the same row twice. *)
Definition twice_a : Explorer.state :=
  Explorer.processJsonData [row_a; row_b; row_a] Explorer.initial.

(** * Properties *)

Import Explorer FilterSpec IdentitySpec.

(** ** Strings *)

Lemma startsWith_iff_app (s sub : string) :
  JsString.startsWith s sub = true <-> exists post, s = sub +:+ post.
Proof.
  revert s. induction sub as [|c sub IH]; intros s; simpl.
  - split; [intros _; by exists s | done].
  - destruct s as [|d s]; simpl.
    + split; [done | intros [post Hpost]; discriminate].
    + rewrite andb_true_iff, Ascii.eqb_eq, IH. split.
      * intros [-> [post ->]]. by exists post.
      * intros [post Hpost]. injection Hpost as -> ->. eauto.
Qed.

Lemma includes_iff_app (s sub : string) :
  JsString.includes s sub = true <->
  exists pre post, s = pre +:+ sub +:+ post.
Proof.
  induction s as [|c s IH]; simpl.
  - rewrite orb_false_r, startsWith_iff_app. split.
    + intros [post Hpost]. by exists "", post.
    + intros [[|d pre] [post Hpost]]; [by exists post | discriminate].
  - rewrite orb_true_iff, startsWith_iff_app, IH. split.
    + intros [[post Hpost] | (pre & post & Hs)].
      * by exists "", post.
      * exists (String c pre), post. simpl. by rewrite Hs.
    + intros [[|d pre] [post Hpost]].
      * left. by exists post.
      * right. simpl in Hpost. injection Hpost as -> ->. by exists pre, post.
Qed.

Lemma eqb_true_iff (s t : string) : JsString.eqb s t = true <-> s = t.
Proof. unfold JsString.eqb. apply bool_decide_eq_true. Qed.

Lemma nonempty_true_iff (s : string) : JsString.nonempty s = true <-> s <> "".
Proof. destruct s; simpl; split; congruence. Qed.

Lemma includes_ci `{JsLowerCase} (text pat : string) :
  JsString.includes (toLowerCase text) (toLowerCase pat) = true
  <-> contains_ci text pat.
Proof. apply includes_iff_app. Qed.

Lemma str_app_cons (c : ascii) (a b : string) :
  String c a +:+ b = String c (a +:+ b).
Proof. reflexivity. Qed.

Lemma str_app_nil_r (a : string) : a +:+ "" = a.
Proof.
  induction a as [|c a IH]; [reflexivity|]. by rewrite str_app_cons, IH.
Qed.

Lemma str_app_assoc (a b c : string) : (a +:+ b) +:+ c = a +:+ b +:+ c.
Proof.
  induction a as [|x a IH]; [reflexivity|]. by rewrite !str_app_cons, IH.
Qed.

Lemma str_app_eq_nil (a b : string) : a +:+ b = "" -> a = "" /\ b = "".
Proof. destruct a; [by split | discriminate]. Qed.

(** The case mapping of the worked examples maps character by character,
    and no character but a digit to a digit. *)
Lemma ascii_toLowerCase_app (a b : string) :
  JsString.ascii_toLowerCase (a +:+ b)
  = JsString.ascii_toLowerCase a +:+ JsString.ascii_toLowerCase b.
Proof.
  induction a as [|c a IH]; [reflexivity|].
  rewrite str_app_cons. simpl. by rewrite IH.
Qed.



Lemma ascii_lower_case_keeps_spaces : @lower_case_keeps_spaces ascii_lower_case.
Proof.
  intros a b. unfold toLowerCase, ascii_lower_case.
  by rewrite !ascii_toLowerCase_app.
Qed.


(** ** Flags *)

Lemma read_flag_insert_eq (flags : gmap string bool) (key : string) (b : bool) :
  read_flag (<[key := b]> flags) key = b.
Proof. unfold read_flag. by rewrite lookup_insert_eq. Qed.

Lemma read_flag_insert_ne (flags : gmap string bool) (key k : string) (b : bool) :
  key <> k -> read_flag (<[key := b]> flags) k = read_flag flags k.
Proof. intros Hne. unfold read_flag. by rewrite lookup_insert_ne. Qed.

Lemma existsb_elem_of {A : Type} (p : A -> bool) (l : list A) :
  existsb p l = true <-> exists x, x ∈ l /\ p x = true.
Proof.
  rewrite existsb_exists.
  split; intros (x & Hx & Hp); exists x; split; auto; by apply list_elem_of_In.
Qed.

Lemma forallb_elem_of {A : Type} (p : A -> bool) (l : list A) :
  forallb p l = true <-> forall x, x ∈ l -> p x = true.
Proof.
  rewrite forallb_forall.
  split; intros Hall x Hx; apply Hall; by apply list_elem_of_In.
Qed.

(** ** Reads *)

Section ReadProperties.

Context `{JsFunctionText}.



(** An array or [null] that is read is the row's own. *)
Lemma read_array (r : JsonRecord) (key : string) (items : list json) :
  read r key = Some (JArr items) -> get r key = Some (JArr items).
Proof.
  destruct r; try done. simpl. destruct (assoc key props); [done|].
  unfold inherited_member. by repeat case_match.
Qed.

Lemma read_null (r : JsonRecord) (key : string) :
  read r key = Some JNull -> get r key = Some JNull.
Proof.
  destruct r; try done. simpl. destruct (assoc key props); [done|].
  unfold inherited_member. by repeat case_match.
Qed.

End ReadProperties.

(** ** The filter of the explorer *)

Section FilterProperties.

Context `{JsNumberFormat} `{JsLowerCase} `{JsFunctionText}.

(** The toggle read by [okColumnFilter] is the mode of the specification. *)
Lemma exact_toggle (st : state) (key : string) :
  read_flag (columnExactMatch st) key =
  match mode_of st key with Exact => true | Substring => false end.
Proof.
  unfold mode_of. by destruct (read_flag (columnExactMatch st) key).
Qed.

(** [okColumnFilter] on a configured filter decides [field_matches]. *)
Lemma okColumnFilter_matches (st : state) (r : JsonRecord) (key pat : string) :
  pat <> "" ->
  okColumnFilter st r (key, pat) = true <->
  field_matches (mode_of st key) pat (read r key).
Proof.
  intros Hpat. apply nonempty_true_iff in Hpat.
  unfold okColumnFilter. rewrite Hpat, exact_toggle. simpl.
  destruct (read r key) as [value|]; [|done].
  destruct value as [|b|n|s|items|props], (mode_of st key);
    unfold field_matches, text_matches;
    rewrite ?includes_ci, ?eqb_true_iff; try done.
  rewrite existsb_elem_of. unfold equals_ci.
  by setoid_rewrite eqb_true_iff.
Qed.

(** A filter whose pattern is empty is not configured: it passes. *)
Lemma okColumnFilter_empty (st : state) (r : JsonRecord) (key : string) :
  okColumnFilter st r (key, "") = true.
Proof. reflexivity. Qed.

(** [okQ] decides the global query predicate. *)
Lemma okQ_passes (st : state) (r : JsonRecord) :
  okQ st r = true <-> global_query_passes st r.
Proof.
  unfold okQ, global_query_passes.
  destruct (JsString.nonempty (q st)) eqn:Hq.
  - apply nonempty_true_iff in Hq. rewrite existsb_elem_of.
    split.
    + intros (key & Hkey & Hmatch). right. exists key. split; [done|].
      destruct (read r key) as [[|b|n|s|items|props]|];
        unfold field_matches, text_matches;
        try discriminate; by apply includes_ci.
    + intros [Hempty | (key & Hkey & Hmatch)]; [done|].
      exists key. split; [done|].
      destruct (read r key) as [[|b|n|s|items|props]|];
        unfold field_matches, text_matches in Hmatch;
        try done; by apply includes_ci.
  - destruct (q st); [|discriminate]. split; auto.
Qed.

Lemma okColumnFilters_pass (st : state) (r : JsonRecord) :
  okColumnFilters st r = true <-> field_filters_pass st r.
Proof.
  unfold okColumnFilters, field_filters_pass. rewrite forallb_elem_of. split.
  - intros Hall key pat Hlookup Hpat.
    apply okColumnFilter_matches; [done|].
    apply Hall. by apply elem_of_map_to_list.
  - intros Hall [key pat] Hin. apply elem_of_map_to_list in Hin.
    destruct (decide (pat = "")) as [->|Hpat].
    + apply okColumnFilter_empty.
    + apply okColumnFilter_matches; auto.
Qed.

(** The tests read a query and a pattern through their lower-case forms
    only. *)
Lemma okQ_same_lower (st : state) (query : string) (r : JsonRecord) :
  (query = "" <-> q st = "") -> toLowerCase query = toLowerCase (q st) ->
  okQ (setQ query st) r = okQ st r.
Proof.
  intros [Hquery Hq] Hcase.
  assert (JsString.nonempty query = JsString.nonempty (q st)) as Hsame.
  { destruct query, (q st); simpl; try done;
      [by specialize (Hquery eq_refl) | by specialize (Hq eq_refl)]. }
  unfold okQ. simpl. by rewrite Hsame, Hcase.
Qed.







Lemma filter_sublist {A : Type} (p : A -> bool) (l : list A) :
  List.filter p l `sublist_of` l.
Proof.
  induction l as [|x l IH]; simpl; [constructor|].
  destruct (p x); by constructor.
Qed.

Lemma filter_idempotent {A : Type} (p : A -> bool) (l : list A) :
  List.filter p (List.filter p l) = List.filter p l.
Proof.
  induction l as [|x l IH]; simpl; [done|].
  destruct (p x) eqn:Hp; simpl; [rewrite Hp; by f_equal | done].
Qed.

(** C4: the filtered view is a sublist of the rows (their order kept), and
    filtering it again under the same filter state gives it back. *)
Theorem filtered_sublist_idempotent (st : state) :
  filtered st `sublist_of` rows st /\
  filtered (setRows (filtered st) st) = filtered st.
Proof.
  split; [apply filter_sublist|].
  unfold filtered at 1. simpl rows.
  change (okQ (setRows (filtered st) st)) with (okQ st).
  change (okColumnFilters (setRows (filtered st) st)) with (okColumnFilters st).
  apply filter_idempotent.
Qed.

End FilterProperties.

(** ** The identity of a row *)

Lemma dash_free_app_dash (a b : string) : ~ dash_free (a +:+ "-" +:+ b).
Proof. induction a as [|c a IH]; simpl; tauto. Qed.

(** The text after the last [-] of a string is determined by the string. *)
Lemma app_dash_inj (a b d e : string) :
  dash_free d -> dash_free e ->
  a +:+ "-" +:+ d = b +:+ "-" +:+ e -> a = b /\ d = e.
Proof.
  intros Hd He. revert b.
  induction a as [|c a IH]; intros [|c' b] Heq.
  - injection Heq as Heq. by split.
  - injection Heq as _ Heq. change ("" +:+ d) with d in Heq. subst d.
    by destruct (dash_free_app_dash b e).
  - injection Heq as _ Heq. change ("" +:+ e) with e in Heq. subst e.
    by destruct (dash_free_app_dash a d).
  - injection Heq as -> Heq. by destruct (IH b Heq) as [-> ->].
Qed.

Lemma pretty_N_char_dash_free (x : N) : pretty_N_char x <> "-"%char.
Proof. unfold pretty_N_char. by repeat case_match. Qed.

Lemma pretty_N_go_dash_free (x : N) (s : string) :
  dash_free s -> dash_free (pretty_N_go x s).
Proof.
  revert s. induction (N.lt_wf_0 x) as [x _ IH]; intros s Hs.
  destruct (decide (x = 0)%N) as [->|Hx]; [by rewrite pretty_N_go_0|].
  rewrite pretty_N_go_step by lia.
  apply IH; [apply N.div_lt; lia|].
  simpl. split; [apply pretty_N_char_dash_free | done].
Qed.

Lemma pretty_N_dash_free (x : N) : dash_free (pretty x).
Proof.
  unfold pretty, pretty_N. case_decide; [simpl; by split|].
  by apply pretty_N_go_dash_free.
Qed.

(** The decimal text of a position has no sign. *)
Lemma pretty_position_dash_free (i : nat) : dash_free (pretty (Z.of_nat i)).
Proof.
  destruct i as [|i]; [simpl; by split|].
  change (dash_free (pretty (N.pos (Pos.of_succ_nat i)))).
  apply pretty_N_dash_free.
Qed.

Section IdentityProperties.

Context `{JsNumberFormat}.


Lemma getRowId_index_inj (keys : list string) (r r' : JsonRecord) (i j : nat) :
  getRowId keys r (Z.of_nat i) = getRowId keys r' (Z.of_nat j) -> i = j.
Proof.
  unfold getRowId. intros Heq.
  apply app_dash_inj in Heq as [_ Hindex];
    try apply pretty_position_dash_free.
  apply (inj pretty) in Hindex. lia.
Qed.


End IdentityProperties.


(** ** Loading and importing *)

(** [processJsonData] writes the collection, the known fields and the
    column visibility, and no other cell of the state. *)
Lemma processJsonData_frame (data : list JsonRecord) (st : state) :
  let st' := processJsonData data st in
  q st' = q st /\ columnFilters st' = columnFilters st /\
  columnExactMatch st' = columnExactMatch st /\
  editingRowId st' = editingRowId st /\ editingData st' = editingData st /\
  editedRows st' = editedRows st.
Proof. by destruct data. Qed.

Lemma processJsonData_rows (data : list JsonRecord) (st : state) :
  rows (processJsonData data st) = data /\
  jsonData (processJsonData data st) = data.
Proof. by destruct data. Qed.

(** The sibling path: the Reset Edits handler empties the overlay itself
    after the load. *)
Lemma resetEdits_clears_overlay (data : list JsonRecord) (st : state) :
  editedRows (resetEdits data st) = ∅ /\
  editingRowId (resetEdits data st) = None /\
  editingData (resetEdits data st) = JObj [].
Proof. by repeat split. Qed.

(** C5: the import wraps a parsed value that is not an array into a
    one-element collection and takes the elements of a parsed array as the
    collection; when the text does not parse, the user is alerted and the
    state is the one before.  A file holding the object with the one field a
    gives one row and the known field a. *)
Theorem importJsonData_outcomes (st : state) :
  (forall v, isArray v = false ->
     (reader_onload (Parsed v) st).2 = [] /\
     rows (reader_onload (Parsed v) st).1 = [v] /\
     jsonData (reader_onload (Parsed v) st).1 = [v]) /\
  (forall items,
     (reader_onload (Parsed (JArr items)) st).2 = [] /\
     rows (reader_onload (Parsed (JArr items)) st).1 = items /\
     jsonData (reader_onload (Parsed (JArr items)) st).1 = items) /\
  importJsonData (Some SyntaxError) st = (st, [invalid_json_alert]) /\
  rows (importJsonData (Some (Parsed (JObj [("a", JNum 1)]))) st).1
    = [JObj [("a", JNum 1)]] /\
  jsonKeys (importJsonData (Some (Parsed (JObj [("a", JNum 1)]))) st).1 = ["a"].
Proof.
  split; [|split; [|by repeat split]].
  - intros v Hv. destruct v; try discriminate; by repeat split.
  - intros items. split; [done|]. apply processJsonData_rows.
Qed.

(** C6: an import that arrives while a row is marked edited and a session is
    open leaves both in place, on rows they were not made for. *)
Lemma import_keeps_edit_overlay :
  editedRows edited_a = {["a-0"]} /\
  editingRowId edited_a = Some "a-0" /\
  rows stale_session = [row_z] /\
  editedRows stale_session = {["a-0"]} /\
  editingRowId stale_session = Some "a-0" /\
  editingData stale_session = row_a.
Proof. repeat split; by vm_compute. Qed.

(** ** The edit overlay *)

Lemma findIndex_from_absent {A : Type} (p : A -> Z -> bool) (l : list A) (b : Z) :
  (forall (k : nat) x, l !! k = Some x -> p x (b + Z.of_nat k)%Z = false) ->
  findIndex_from p b l = (-1)%Z.
Proof.
  revert b. induction l as [|y l IH]; intros b Hall; simpl; [done|].
  pose proof (Hall 0%nat y eq_refl) as Hy.
  rewrite Z.add_0_r in Hy. rewrite Hy.
  apply IH. intros k x Hk.
  replace (b + 1 + Z.of_nat k)%Z with (b + Z.of_nat (S k))%Z by lia.
  by apply Hall.
Qed.

Lemma findIndex_from_first {A : Type} (p : A -> Z -> bool) (l : list A)
    (b : Z) (i : nat) (x : A) :
  l !! i = Some x -> p x (b + Z.of_nat i)%Z = true ->
  (forall (j : nat) y, (j < i)%nat -> l !! j = Some y ->
                       p y (b + Z.of_nat j)%Z = false) ->
  findIndex_from p b l = (b + Z.of_nat i)%Z.
Proof.
  revert b i. induction l as [|y l IH]; intros b i Hi Hp Hbefore; [done|].
  destruct i as [|i]; simpl in *.
  - simplify_eq. rewrite Z.add_0_r in *. by rewrite Hp.
  - pose proof (Hbefore 0%nat y ltac:(lia) eq_refl) as Hy.
    rewrite Z.add_0_r in Hy. rewrite Hy.
    rewrite (IH (b + 1)%Z i); [lia | done | |].
    + by replace (b + 1 + Z.of_nat i)%Z with (b + Z.pos (Pos.of_succ_nat i))%Z
        by lia.
    + intros j z Hj Hz.
      replace (b + 1 + Z.of_nat j)%Z with (b + Z.of_nat (S j))%Z by lia.
      apply Hbefore; [lia | done].
Qed.

Section EditProperties.

Context `{JsNumberFormat}.

(** [startEditing] finds the row by its JSON text: the index it passes to
    [getRowId] is the first position that holds a row with that text. *)
Lemma startEditing_identity (st : state) (rowData : JsonRecord) (i : nat) :
  rows st !! i = Some rowData ->
  (forall (j : nat) r, (j < i)%nat -> rows st !! j = Some r ->
                       JSON_stringify r <> JSON_stringify rowData) ->
  editingRowId (startEditing rowData st)
  = Some (getRowId (jsonKeys st) rowData (Z.of_nat i)).
Proof.
  intros Hi Hfirst. unfold startEditing, findIndex. simpl.
  rewrite (findIndex_from_first _ (rows st) 0 i rowData); try done.
  - by apply eqb_true_iff.
  - intros j r Hj Hr. apply not_true_is_false. rewrite eqb_true_iff.
    by eapply Hfirst.
Qed.

(** C8, as amended: a call of [startEditing] while a session is open for
    another identity is not rejected: the open session is replaced by one
    for the row of the call (its identity, and a copy of its fields); the
    collection and the set of edited identities are as before. *)
Theorem startEditing_replaces_session (st : state) (rowData : JsonRecord)
    (i : nat) (id : string) :
  editingRowId st = Some id ->
  rows st !! i = Some rowData ->
  (forall (j : nat) r, (j < i)%nat -> rows st !! j = Some r ->
                       JSON_stringify r <> JSON_stringify rowData) ->
  getRowId (jsonKeys st) rowData (Z.of_nat i) <> id ->
  editingRowId (startEditing rowData st)
    = Some (getRowId (jsonKeys st) rowData (Z.of_nat i)) /\
  editingRowId (startEditing rowData st) <> Some id /\
  editingData (startEditing rowData st) = spread rowData /\
  rows (startEditing rowData st) = rows st /\
  jsonData (startEditing rowData st) = jsonData st /\
  editedRows (startEditing rowData st) = editedRows st.
Proof.
  intros Hopen Hi Hfirst Hother.
  rewrite (startEditing_identity st rowData i Hi Hfirst).
  split; [done|]. split; [congruence|]. by repeat split.
Qed.

(** C9: opening a session on a row and cancelling it at once leaves the
    collection as it was, and so its serialisation; a [saveEdit] after that
    finds no session and changes nothing either. *)
Theorem cancel_after_start_keeps_collection (st : state) (rowData : JsonRecord) :
  rows (cancelEdit (startEditing rowData st)) = rows st /\
  jsonData (cancelEdit (startEditing rowData st)) = jsonData st /\
  JSON_stringify (JArr (dataToExport (cancelEdit (startEditing rowData st))))
    = JSON_stringify (JArr (dataToExport st)) /\
  editingRowId (cancelEdit (startEditing rowData st)) = None /\
  saveEdit (cancelEdit (startEditing rowData st))
    = cancelEdit (startEditing rowData st).
Proof.
  assert (rows (cancelEdit (startEditing rowData st)) = rows st) as Hrows
    by reflexivity.
  assert (jsonData (cancelEdit (startEditing rowData st)) = jsonData st)
    as Hjson by reflexivity.
  split; [exact Hrows|]. split; [exact Hjson|].
  split; [unfold dataToExport; by rewrite Hrows, Hjson|].
  by split.
Qed.

(** C10: when [saveEdit] runs with a session whose identity is the identity
    of no row of the collection, the collection stays as it is, the
    identity joins the edited set and the session is closed: the edited set
    then holds an identity that no row has. *)
Theorem saveEdit_stale_identity (st : state) (id : string) :
  editingRowId st = Some id -> id <> "" ->
  (forall (k : nat) r, rows st !! k = Some r ->
                       getRowId (jsonKeys st) r (Z.of_nat k) <> id) ->
  rows (saveEdit st) = rows st /\
  jsonData (saveEdit st) = jsonData st /\
  editedRows (saveEdit st) = {[id]} ∪ editedRows st /\
  editingRowId (saveEdit st) = None /\
  editingData (saveEdit st) = JObj [] /\
  id ∈ editedRows (saveEdit st) /\
  (forall (k : nat) r, rows (saveEdit st) !! k = Some r ->
      getRowId (jsonKeys (saveEdit st)) r (Z.of_nat k) <> id).
Proof.
  intros Hopen Hid Hstale. apply nonempty_true_iff in Hid.
  unfold saveEdit. rewrite Hopen, Hid. unfold findIndex.
  rewrite findIndex_from_absent; simpl.
  - repeat split; try done. set_solver.
  - intros k r Hk. apply not_true_is_false. rewrite eqb_true_iff.
    by apply Hstale.
Qed.

End EditProperties.

(** C8, as stated, fails: with a session open on the first row, the call
    for the second row opens a session on it instead of being refused. *)
Lemma startEditing_over_open_session :
  editingRowId editing_a = Some "a-0" /\
  editingRowId (@startEditing integer_format row_b editing_a) = Some "b-1" /\
  editingData (@startEditing integer_format row_b editing_a) = row_b.
Proof. repeat split; by vm_compute. Qed.

Lemma startEditing_replaces_session_witness :
  editingRowId (@startEditing integer_format row_b editing_a) = Some "b-1" /\
  rows (@startEditing integer_format row_b editing_a) = [row_a; row_b].
Proof.
  destruct (@startEditing_replaces_session integer_format editing_a row_b
              1%nat "a-0") as (Hid & _ & _ & Hrows & _).
  - reflexivity.
  - reflexivity.
  - intros [|j] r Hj Hr; [|lia]. injection Hr as <-. by vm_compute.
  - by vm_compute.
  - split; [exact Hid | exact Hrows].
Defined.

Lemma saveEdit_stale_identity_witness :
  rows (@saveEdit integer_format stale_session) = [row_z] /\
  "a-0" ∈ editedRows (@saveEdit integer_format stale_session).
Proof.
  destruct (@saveEdit_stale_identity integer_format stale_session "a-0")
    as (Hrows & _ & _ & _ & _ & Hin & _).
  - reflexivity.
  - discriminate.
  - intros [|[|k]] r Hr; try discriminate. injection Hr as <-. by vm_compute.
  - split; [exact Hrows | exact Hin].
Defined.


(** A pattern in capitals finds the text in small letters, in either mode. *)
Lemma capital_pattern_matches :
  @okColumnFilter integer_format ascii_lower_case native_code_text
    two_rows row_a ("title", "FIRST") = true /\
  @okColumnFilter integer_format ascii_lower_case native_code_text
    (Explorer.setColumnExactMatch {["title" := true]} two_rows) row_a
    ("title", "First") = true.
Proof. split; by vm_compute. Qed.

(** The reads of the filter find what a row inherits: a search for
    [native] shows the row that has no field [constructor], since the read
    there gives the function [Object], and a column of that name is in
    exact mode before any click on its toggle. *)
Lemma inherited_member_is_searched :
  get row_plain "constructor" = None /\
  @filtered integer_format ascii_lower_case native_code_text searching_native
  = [row_plain] /\
  mode_of searching_native "constructor" = Exact.
Proof. repeat split; by vm_compute. Qed.

(** ** The rate calculator *)

Section RateProperties.

Import Rates.

Context `{JsMath}.

Lemma strictly_positive_both (x y : float) :
  (0 <? x)%float && (0 <? y)%float = true <-> strictly_positive x /\ strictly_positive y.
Proof. unfold strictly_positive. apply andb_true_iff. Qed.

(** The clamp keeps the divisor away from zero. *)
Lemma Math_max_one_nonzero (d : float) : (Math_max 1 d =? 0)%float = false.
Proof.
  unfold Math_max.
  destruct (PrimFloat.is_nan d) eqn:Hnan; simpl; [reflexivity|].
  destruct (1 <? d)%float eqn:Hlt; [|by destruct (d <? 1)%float].
  rewrite FloatAxioms.ltb_spec in Hlt. rewrite FloatAxioms.eqb_spec.
  by destruct (Prim2SF d) as [[]|[]| |[] m e].
Qed.

(** C3: [computeRates] returns the years clamped from below by one; the
    land consumption rate when both areas are positive and nothing
    otherwise; the population growth rate when both populations are positive
    and nothing otherwise; their ratio when both rates exist and the growth
    rate is not zero, and nothing otherwise.  It is a total function: no
    input makes it fail. *)
Theorem computeRates_fields (areaT areaTN : float) (pop : PopPayload) :
  years (computeRates areaT areaTN pop) = Math_max 1 (t_n pop - t pop) /\
  (years (computeRates areaT areaTN pop) =? 0)%float = false /\
  (strictly_positive areaT /\ strictly_positive areaTN ->
   lcr (computeRates areaT areaTN pop)
   = Some (Math_log (areaTN / areaT) / Math_max 1 (t_n pop - t pop))%float) /\
  (~ (strictly_positive areaT /\ strictly_positive areaTN) ->
   lcr (computeRates areaT areaTN pop) = None) /\
  (strictly_positive (population_t pop) /\ strictly_positive (population_tn pop) ->
   pgr (computeRates areaT areaTN pop)
   = Some (Math_log (population_tn pop / population_t pop)
           / Math_max 1 (t_n pop - t pop))%float) /\
  (~ (strictly_positive (population_t pop) /\ strictly_positive (population_tn pop)) ->
   pgr (computeRates areaT areaTN pop) = None) /\
  (forall l p : float,
     lcr (computeRates areaT areaTN pop) = Some l ->
     pgr (computeRates areaT areaTN pop) = Some p ->
     (p =? 0)%float = false ->
     ratio (computeRates areaT areaTN pop) = Some (l / p)%float) /\
  (lcr (computeRates areaT areaTN pop) = None \/
   pgr (computeRates areaT areaTN pop) = None \/
   (exists p, pgr (computeRates areaT areaTN pop) = Some p /\
              (p =? 0)%float = true) ->
   ratio (computeRates areaT areaTN pop) = None).
Proof.
  unfold computeRates; simpl.
  split; [reflexivity|]. split; [apply Math_max_one_nonzero|].
  rewrite <- !strictly_positive_both.
  destruct ((0 <? areaT)%float && (0 <? areaTN)%float);
    destruct ((0 <? population_t pop)%float && (0 <? population_tn pop)%float);
    repeat split; try congruence; try (intros Hno; by destruct Hno).
  - intros l p [= <-] [= <-] ->. reflexivity.
  - intros [Hno | [Hno | (p & [= <-] & ->)]]; by try discriminate.
Qed.

(** The third worked example of the specification: a zero area leaves the
    land consumption rate and the ratio undefined, the growth rate is
    defined. *)
Lemma computeRates_zero_area :
  let s := computeRates 0 200
             {| t := 2000; t_n := 2010;
                population_t := 1000; population_tn := 1100 |} in
  years s = 10%float /\ lcr s = None /\ ratio s = None /\
  pgr s = Some (Math_log (1100 / 1000) / 10)%float.
Proof. by vm_compute. Qed.

End RateProperties.

(** * Further properties of the code *)

Import Handlers.

(** ** Strings, continued *)

Lemma contains_ci_trans `{JsLowerCase} (text mid pat : string) :
  contains_ci text mid -> contains_ci mid pat -> contains_ci text pat.
Proof.
  intros (a & b & Htext) (c & d & Hmid). exists (a +:+ c), (d +:+ b).
  by rewrite Htext, Hmid, !str_app_assoc.
Qed.

Lemma equals_contains_ci `{JsLowerCase} (text pat : string) :
  equals_ci text pat -> contains_ci text pat.
Proof.
  intros Heq. exists "", "". rewrite Heq. by rewrite str_app_nil_r.
Qed.

Lemma concat_elem (sep x : string) (l : list string) :
  x ∈ l -> exists pre post, String.concat sep l = pre +:+ x +:+ post.
Proof.
  induction l as [|y l IH]; intros Hx; [by apply elem_of_nil in Hx|].
  apply elem_of_cons in Hx as [->|Hx].
  - destruct l as [|z l]; simpl.
    + exists "", "". by rewrite str_app_nil_r.
    + by exists "", (sep +:+ String.concat sep (z :: l)).
  - destruct (IH Hx) as (pre & post & Heq).
    destruct l as [|z l]; [by apply elem_of_nil in Hx|].
    exists (y +:+ sep +:+ pre), post.
    change (String.concat sep (y :: z :: l))
      with (y +:+ sep +:+ String.concat sep (z :: l)).
    by rewrite Heq, !str_app_assoc.
Qed.

(** ** The filter, continued *)

Lemma filter_all {A : Type} (p : A -> bool) (l : list A) :
  (forall x, x ∈ l -> p x = true) -> List.filter p l = l.
Proof.
  induction l as [|x l IH]; intros Hall; simpl; [done|].
  rewrite (Hall x) by apply list_elem_of_here.
  f_equal. apply IH. intros y Hy. apply Hall. by apply list_elem_of_further.
Qed.

Lemma filter_sublist_mono {A : Type} (p p' : A -> bool) (l : list A) :
  (forall x, x ∈ l -> p x = true -> p' x = true) ->
  List.filter p l `sublist_of` List.filter p' l.
Proof.
  induction l as [|x l IH]; intros Himp; simpl; [constructor|].
  assert (List.filter p l `sublist_of` List.filter p' l) as Hrest.
  { apply IH. intros y Hy. apply Himp. by apply list_elem_of_further. }
  pose proof (Himp x (list_elem_of_here x l)) as Hx.
  destruct (p x), (p' x).
  - by constructor.
  - by specialize (Hx eq_refl).
  - by constructor.
  - done.
Qed.

Lemma filter_agree {A : Type} (p p' : A -> bool) (l : list A) :
  (forall x, x ∈ l -> p x = p' x) -> List.filter p l = List.filter p' l.
Proof.
  induction l as [|x l IH]; intros Hagree; simpl; [done|].
  rewrite (Hagree x) by apply list_elem_of_here.
  rewrite IH; [done|]. intros y Hy. apply Hagree. by apply list_elem_of_further.
Qed.

Section FilterComposition.

Context `{JsNumberFormat} `{JsLowerCase} `{JsFunctionText}.

(** A field that contains a text contains every text this one contains. *)
Lemma field_matches_substring_mono (pat pat' : string) (value : option json) :
  contains_ci pat' pat ->
  field_matches Substring pat' value -> field_matches Substring pat value.
Proof.
  intros Hpat.
  destruct value as [[|b|n|s|items|props]|]; unfold field_matches, text_matches;
    try done; intros Hmatch; by eapply contains_ci_trans.
Qed.

Lemma global_query_mono (st : state) (query : string) (r : JsonRecord) :
  (query = "" -> q st = "") ->
  contains_ci query (q st) ->
  global_query_passes (setQ query st) r -> global_query_passes st r.
Proof.
  intros Hempty Hquery [Hnone | (key & Hkey & Hmatch)]; simpl in *.
  - left. by apply Hempty.
  - right. exists key. split; [done|].
    by apply (field_matches_substring_mono _ query).
Qed.

(** Where the case mapping treats a space as a separator, the lower-case
    form of texts joined by spaces is their lower-case forms joined by
    spaces. *)
Lemma toLowerCase_concat (l : list string) :
  lower_case_keeps_spaces -> l <> [] ->
  toLowerCase (String.concat " " l) = String.concat " " (map toLowerCase l).
Proof.
  intros Hspaces.
  induction l as [|x [|y l] IH]; intros Hne; [done | done |].
  change (String.concat " " (x :: y :: l))
    with (x +:+ " " +:+ String.concat " " (y :: l)).
  rewrite Hspaces, IH by done. reflexivity.
Qed.

(** X1: when the query is empty and no column holds a pattern (an entry
    left empty counts as none), the table shows every row. *)
Theorem filtered_all_when_inactive (st : state) :
  q st = "" ->
  (forall key pat, columnFilters st !! key = Some pat -> pat = "") ->
  filtered st = rows st.
Proof.
  intros Hq Hnone. unfold filtered. apply filter_all. intros r _.
  apply andb_true_iff. split.
  - apply okQ_passes. by left.
  - apply okColumnFilters_pass. intros key pat Hlookup Hpat.
    by destruct Hpat; eapply Hnone.
Qed.

(** X2: the Clear Filters button shows every row again, closes the edit
    session, and leaves the rows and the edited marks as they are. *)
Theorem clearFilters_shows_all (st : state) :
  filtered (clearFilters st) = rows st /\
  rows (clearFilters st) = rows st /\
  editedRows (clearFilters st) = editedRows st /\
  editingRowId (clearFilters st) = None.
Proof.
  split; [|done].
  unfold filtered. apply filter_all. intros r _.
  apply andb_true_iff. split; [done|].
  apply okColumnFilters_pass. intros key pat Hlookup.
  simpl in Hlookup. by rewrite lookup_empty in Hlookup.
Qed.

(** X3: a pattern typed into a column that held none can only remove rows
    from the table. *)
Theorem columnFilterChange_narrows (st : state) (key pat : string) :
  (columnFilters st !! key = None \/ columnFilters st !! key = Some "") ->
  filtered (columnFilterChange key pat st) `sublist_of` filtered st.
Proof.
  intros Hinactive. unfold filtered. apply filter_sublist_mono.
  intros r _. rewrite !andb_true_iff. intros [Hq Hfilters]. split; [done|].
  apply okColumnFilters_pass. apply okColumnFilters_pass in Hfilters.
  intros key' pat' Hlookup Hpat'.
  assert (key <> key') as Hne.
  { intros <-. destruct Hinactive as [Hnone | Hempty]; congruence. }
  apply (Hfilters key' pat'); [|done].
  simpl. by rewrite lookup_insert_ne.
Qed.

(** X4: a query whose lower-case form contains the lower-case form of the
    current one, and which is empty only if the current one is, can only
    remove rows from the table. *)
Theorem search_refinement_narrows (st : state) (query : string) :
  (query = "" -> q st = "") ->
  contains_ci query (q st) ->
  filtered (setQ query st) `sublist_of` filtered st.
Proof.
  intros Hempty Hquery. unfold filtered. apply filter_sublist_mono.
  intros r _. rewrite !andb_true_iff. intros [Hq Hfilters]. split; [|done].
  apply okQ_passes. apply okQ_passes in Hq.
  by apply (global_query_mono st query).
Qed.

(** X5: the table does not depend on the letter case of the query: a query
    with the same lower-case form as the current one, and empty only if the
    current one is, shows the same table. *)
Theorem search_ignores_case (st : state) (query : string) :
  (query = "" <-> q st = "") ->
  toLowerCase query = toLowerCase (q st) ->
  filtered (setQ query st) = filtered st.
Proof.
  intros Hempty Hcase. unfold filtered. apply filter_agree. intros r _.
  f_equal. by apply okQ_same_lower.
Qed.

(** In a field without [null] elements, a value that matches a pattern in
    exact mode matches it in substring mode. *)
Lemma field_matches_exact_substring (pat : string) (value : option json) :
  lower_case_keeps_spaces ->
  (forall items, value = Some (JArr items) -> JNull ∉ items) ->
  field_matches Exact pat value -> field_matches Substring pat value.
Proof.
  intros Hspaces Hnonull.
  destruct value as [[|b|n|s|items|props]|]; unfold field_matches, text_matches;
    try done; try apply equals_contains_ci.
  intros (item & Hitem & Heq). unfold equals_ci in Heq.
  set (texts := map (fun x => match x with JNull => "" | _ => toString x end)
                    items).
  assert (toString item ∈ texts) as Hin.
  { apply list_elem_of_In, in_map_iff. exists item.
    split; [|by apply list_elem_of_In].
    destruct item; try done. by destruct (Hnonull items eq_refl). }
  assert (texts <> []) as Hne.
  { intros Hnil. rewrite Hnil in Hin. by apply elem_of_nil in Hin. }
  assert (toLowerCase (toString item) ∈ map toLowerCase texts) as Hlower.
  { apply list_elem_of_In, in_map_iff. exists (toString item).
    split; [done | by apply list_elem_of_In]. }
  destruct (concat_elem " " _ _ Hlower) as (pre & post & Hjoin).
  unfold contains_ci, join. fold texts.
  rewrite (toLowerCase_concat texts Hspaces Hne), Hjoin, Heq. eauto.
Qed.

(** X6: switching a column from exact to substring mode can only add rows to
    the table, provided no array in that column holds [null]; the case
    mapping of the runtime treats a space as a separator. *)
Theorem exactMatchClick_widens (st : state) (key : string) :
  lower_case_keeps_spaces ->
  mode_of st key = Exact ->
  (forall r items, r ∈ rows st -> get r key = Some (JArr items) ->
                   JNull ∉ items) ->
  filtered st `sublist_of` filtered (exactMatchClick key st).
Proof.
  intros Hspaces Hexact Hnonull. unfold filtered. apply filter_sublist_mono.
  intros r Hr. rewrite !andb_true_iff. intros [Hq Hfilters]. split; [done|].
  apply okColumnFilters_pass. apply okColumnFilters_pass in Hfilters.
  intros key' pat' Hlookup Hpat'. specialize (Hfilters key' pat' Hlookup Hpat').
  assert (mode_of (exactMatchClick key st) key = Substring) as Hsub.
  { unfold mode_of in *. simpl. rewrite read_flag_insert_eq.
    by destruct (read_flag (columnExactMatch st) key). }
  destruct (decide (key = key')) as [<-|Hne].
  - rewrite Hsub. rewrite Hexact in Hfilters.
    apply field_matches_exact_substring; [done| |done].
    intros items Hitems. apply (Hnonull r items Hr). by apply read_array.
  - replace (mode_of (exactMatchClick key st) key') with (mode_of st key'); [done|].
    unfold mode_of. simpl. by rewrite read_flag_insert_ne.
Qed.

End FilterComposition.

(** ** The known fields and the default columns *)

Lemma assoc_Some_key (key : string) (props : list (string * json)) (v : json) :
  assoc key props = Some v -> key ∈ map fst props.
Proof.
  induction props as [|[k x] props IH]; simpl; [done|].
  destruct (JsString.eqb k key) eqn:Hk.
  - apply eqb_true_iff in Hk as ->. intros _. apply list_elem_of_here.
  - intros Hrest. apply list_elem_of_further. by apply IH.
Qed.

Lemma add_key_elem (acc : list string) (key k : string) :
  k ∈ add_key acc key <-> k ∈ acc \/ k = key.
Proof.
  unfold add_key. case_bool_decide as Hin.
  - split; [by left | by intros [?| ->]].
  - rewrite elem_of_app, list_elem_of_singleton. done.
Qed.

Lemma add_key_NoDup (acc : list string) (key : string) :
  NoDup acc -> NoDup (add_key acc key).
Proof.
  intros Hacc. unfold add_key. case_bool_decide as Hin; [done|].
  apply NoDup_app. split; [done|]. split; [|apply NoDup_singleton].
  intros k Hk ->%list_elem_of_singleton. done.
Qed.

Lemma add_key_prefix (acc : list string) (key : string) :
  acc `prefix_of` add_key acc key.
Proof.
  unfold add_key. case_bool_decide; [done|]. by apply prefix_app_r.
Qed.

Lemma foldl_add_key_elem (ks acc : list string) (k : string) :
  k ∈ foldl add_key acc ks <-> k ∈ acc \/ k ∈ ks.
Proof.
  revert acc. induction ks as [|key ks IH]; intros acc; simpl.
  - rewrite elem_of_nil. tauto.
  - rewrite IH, add_key_elem, elem_of_cons. tauto.
Qed.

Lemma foldl_add_key_NoDup (ks acc : list string) :
  NoDup acc -> NoDup (foldl add_key acc ks).
Proof.
  revert acc. induction ks as [|key ks IH]; intros acc Hacc; simpl; [done|].
  by apply IH, add_key_NoDup.
Qed.

Lemma foldl_add_key_prefix (ks acc : list string) :
  acc `prefix_of` foldl add_key acc ks.
Proof.
  revert acc. induction ks as [|key ks IH]; intros acc; simpl; [done|].
  etrans; [apply add_key_prefix | apply IH].
Qed.

Lemma foldl_add_key_fresh (ks acc : list string) :
  NoDup (acc ++ ks)%list -> foldl add_key acc ks = (acc ++ ks)%list.
Proof.
  revert acc. induction ks as [|key ks IH]; intros acc Hnodup; simpl.
  - by rewrite app_nil_r.
  - assert (add_key acc key = (acc ++ [key])%list) as ->.
    { unfold add_key. case_bool_decide as Hin; [|done].
      apply NoDup_app in Hnodup as (_ & Hdisjoint & _).
      destruct (Hdisjoint key Hin). apply list_elem_of_here. }
    rewrite IH; rewrite <- app_assoc; done.
Qed.

Lemma collect_keys_elem (data : list JsonRecord) (acc : list string) (k : string) :
  k ∈ foldl collect_keys acc data <->
  k ∈ acc \/
  exists item, item ∈ data /\ is_object_like item = true /\ k ∈ Object_keys item.
Proof.
  revert acc. induction data as [|item data IH]; intros acc; simpl.
  - split; [by left|]. intros [?|(item & Hitem & _)]; [done|].
    by apply elem_of_nil in Hitem.
  - rewrite IH. unfold collect_keys.
    destruct (is_object_like item) eqn:Hobj.
    + rewrite foldl_add_key_elem. split.
      * intros [[?|Hk]|(it & Hit & Hrest)]; [by left| |].
        -- right. exists item. split; [apply list_elem_of_here | done].
        -- right. exists it. split; [by apply list_elem_of_further | done].
      * intros [?|(it & Hit & Hobj' & Hk)]; [by left; left|].
        apply elem_of_cons in Hit as [->|Hit]; [by left; right|].
        right. by exists it.
    + split.
      * intros [?|(it & Hit & Hrest)]; [by left|].
        right. exists it. split; [by apply list_elem_of_further | done].
      * intros [?|(it & Hit & Hobj' & Hk)]; [by left|].
        apply elem_of_cons in Hit as [->|Hit]; [congruence|].
        right. by exists it.
Qed.

Lemma collect_keys_NoDup (data : list JsonRecord) (acc : list string) :
  NoDup acc -> NoDup (foldl collect_keys acc data).
Proof.
  revert acc. induction data as [|item data IH]; intros acc Hacc; simpl; [done|].
  apply IH. unfold collect_keys.
  destruct (is_object_like item); [by apply foldl_add_key_NoDup | done].
Qed.

Lemma collect_keys_prefix (data : list JsonRecord) (acc : list string) :
  acc `prefix_of` foldl collect_keys acc data.
Proof.
  revert acc. induction data as [|item data IH]; intros acc; simpl; [done|].
  etrans; [|apply IH]. unfold collect_keys.
  destruct (is_object_like item); [apply foldl_add_key_prefix | done].
Qed.

(** X7: after a load the known fields are the keys of the objects (and
    arrays) of the collection, each listed once; every field a row can be
    read at is known; and the keys of the first row, in its own order, come
    first. *)
Theorem jsonKeys_after_load (data : list JsonRecord) (st : state) :
  NoDup (jsonKeys (processJsonData data st)) /\
  (forall k, k ∈ jsonKeys (processJsonData data st) <->
             exists item, item ∈ data /\ is_object_like item = true /\
                          k ∈ Object_keys item) /\
  (forall r k v, r ∈ data -> get r k = Some v ->
                 k ∈ jsonKeys (processJsonData data st)) /\
  (forall props rest, data = JObj props :: rest -> NoDup (map fst props) ->
                      map fst props `prefix_of` jsonKeys (processJsonData data st)).
Proof.
  assert (jsonKeys (processJsonData data st) = foldl collect_keys [] data)
    as -> by (by destruct data).
  assert (forall k, k ∈ foldl collect_keys [] data <->
             exists item, item ∈ data /\ is_object_like item = true /\
                          k ∈ Object_keys item) as Helem.
  { intros k. rewrite collect_keys_elem, elem_of_nil. tauto. }
  split; [apply collect_keys_NoDup, NoDup_nil_2|]. split; [done|]. split.
  - intros r k v Hr Hget. apply Helem. exists r. split; [done|].
    destruct r as [| | | | |props]; try discriminate. split; [done|].
    by eapply assoc_Some_key.
  - intros props rest -> Hnodup. simpl. unfold collect_keys at 2. simpl.
    rewrite (foldl_add_key_fresh _ []) by done. apply collect_keys_prefix.
Qed.

(** An assignment to a flag makes an entry of its own, except on the name
    [__proto__]. *)
Lemma assign_flag_lookup (key : string) (b : bool) (m : gmap string bool)
    (k : string) :
  assign_flag key b m !! k
  = if decide (k = key /\ k <> "__proto__") then Some b else m !! k.
Proof.
  unfold assign_flag. case_bool_decide as Hproto.
  - rewrite decide_False; [done|]. intros [-> Hne]. done.
  - destruct (decide (k = key)) as [->|Hne].
    + by rewrite lookup_insert_eq, decide_True.
    + rewrite lookup_insert_ne by done. rewrite decide_False; [done|]. tauto.
Qed.

Lemma assign_flags_lookup (g : string -> bool) (keys : list string)
    (m0 : gmap string bool) (k : string) :
  foldl (fun (m : gmap string bool) key => assign_flag key (g key) m) m0 keys !! k
  = if decide (k ∈ keys /\ k <> "__proto__") then Some (g k) else m0 !! k.
Proof.
  revert m0. induction keys as [|key keys IH]; intros m0; cbn [foldl].
  - rewrite decide_False; [done|]. intros [Hin%elem_of_nil _]. done.
  - rewrite IH. destruct (decide (k ∈ keys /\ k <> "__proto__")) as [[Hin Hne]|Hout].
    + rewrite decide_True; [done|]. split; [by apply list_elem_of_further | done].
    + rewrite assign_flag_lookup.
      destruct (decide (k = key /\ k <> "__proto__")) as [[-> Hne]|Hother].
      * rewrite decide_True; [done|]. split; [apply list_elem_of_here | done].
      * rewrite decide_False; [done|].
        intros [[->|Hin]%elem_of_cons Hne]; tauto.
Qed.

(** The first pass of [defaultVisible]: each key gets the entry that says
    whether it is a priority column. *)
Lemma by_priority_lookup (keys : list string) (m0 : gmap string bool) (k : string) :
  foldl (fun (m : gmap string bool) key =>
           assign_flag key (bool_decide (key ∈ priorityColumns)) m) m0 keys !! k
  = if decide (k ∈ keys /\ k <> "__proto__")
    then Some (bool_decide (k ∈ priorityColumns))
    else m0 !! k.
Proof.
  exact (assign_flags_lookup (fun key => bool_decide (key ∈ priorityColumns))
           keys m0 k).
Qed.

(** No value of the map is [true] iff the count of [true] values is zero. *)
Lemma visible_count_zero (m : gmap string bool) :
  (length (List.filter (fun b : bool => b) (map snd (map_to_list m))) =? 0)%nat
  = true
  <-> forall k b, m !! k = Some b -> b = false.
Proof.
  rewrite Nat.eqb_eq, length_zero_iff_nil. split.
  - intros Hnil k b Hlookup. destruct b; [|done].
    assert (In true (List.filter (fun b : bool => b) (map snd (map_to_list m))))
      as Hin; [|by rewrite Hnil in Hin].
    apply filter_In. split; [|done]. apply in_map_iff. exists (k, true).
    split; [done|]. by apply list_elem_of_In, elem_of_map_to_list.
  - intros Hall.
    destruct (List.filter (fun b : bool => b) (map snd (map_to_list m)))
      as [|b l] eqn:Hfilter; [done|].
    assert (In b (List.filter (fun b : bool => b) (map snd (map_to_list m))))
      as Hin by (rewrite Hfilter; by left).
    apply filter_In in Hin as [Hin Hb]. apply in_map_iff in Hin as ([k b'] & <- & Hin).
    apply list_elem_of_In, elem_of_map_to_list in Hin.
    simpl in Hb. by rewrite (Hall k b' Hin) in Hb.
Qed.

(** The second pass of [defaultVisible], over the keys with their
    positions. *)
Lemma by_position_other (ps : list (nat * string)) (m0 : gmap string bool)
    (k : string) :
  k ∉ map snd ps \/ k = "__proto__" ->
  foldl (fun (m : gmap string bool) (ik : nat * string) =>
           assign_flag ik.2 (bool_decide (ik.1 < 6)%nat) m) m0 ps !! k = m0 !! k.
Proof.
  revert m0. induction ps as [|[i key] ps IH]; intros m0 Hout; cbn [foldl];
    [done|].
  rewrite IH.
  - rewrite assign_flag_lookup. simpl. rewrite decide_False; [done|].
    intros [-> Hne]. destruct Hout as [Hout|Hproto]; [|done].
    apply Hout. apply list_elem_of_here.
  - destruct Hout as [Hout|Hproto]; [left | by right].
    intros Hin. apply Hout. by apply list_elem_of_further.
Qed.

Lemma by_position_lookup (ps : list (nat * string)) (m0 : gmap string bool)
    (i : nat) (k : string) :
  NoDup (map snd ps) -> (i, k) ∈ ps -> k <> "__proto__" ->
  foldl (fun (m : gmap string bool) (ik : nat * string) =>
           assign_flag ik.2 (bool_decide (ik.1 < 6)%nat) m) m0 ps !! k
  = Some (bool_decide (i < 6)%nat).
Proof.
  revert m0. induction ps as [|[j key] ps IH]; intros m0 Hnodup Hin Hne;
    cbn [foldl].
  - by apply elem_of_nil in Hin.
  - apply NoDup_cons in Hnodup as [Hfresh Hnodup].
    apply elem_of_cons in Hin as [[= -> ->]|Hin].
    + rewrite by_position_other by by left.
      rewrite assign_flag_lookup. simpl. by rewrite decide_True.
    + by apply IH.
Qed.

Lemma imap_pair_snd_from (f : nat -> nat) (keys : list string) :
  map snd (imap (fun i => pair (f i)) keys) = keys.
Proof.
  revert f. induction keys as [|key keys IH]; intros f; simpl; [done|].
  f_equal. apply (IH (f ∘ S)).
Qed.

Lemma imap_pair_snd (keys : list string) : map snd (imap pair keys) = keys.
Proof. apply (imap_pair_snd_from id). Qed.

(** The entries of [defaultVisible] over keys listed once. *)
Lemma defaultVisible_lookup (keys : list string) :
  NoDup keys ->
  (forall k, k ∉ keys \/ k = "__proto__" -> defaultVisible keys !! k = None) /\
  ((exists k, k ∈ keys /\ k ∈ priorityColumns) ->
   forall k, k ∈ keys -> k <> "__proto__" ->
             defaultVisible keys !! k
             = Some (bool_decide (k ∈ priorityColumns))) /\
  ((forall k, k ∈ keys -> k ∉ priorityColumns) ->
   forall i k, keys !! i = Some k -> k <> "__proto__" ->
               defaultVisible keys !! k = Some (bool_decide (i < 6)%nat)).
Proof.
  intros Hnodup.
  assert (forall k, k ∉ keys \/ k = "__proto__" ->
                    ~ (k ∈ keys /\ k <> "__proto__")) as Hno by tauto.
  unfold defaultVisible.
  destruct (length _ =? 0)%nat eqn:Hcount.
  - pose proof (proj1 (visible_count_zero _) Hcount) as Hall. clear Hcount.
    rename Hall into Hcount.
    assert (forall k, k ∈ keys -> k ∉ priorityColumns) as Hnone.
    { intros k Hk Hprio.
      assert (true = false) as Habsurd; [|done].
      apply (Hcount k). rewrite by_priority_lookup, decide_True.
      - by rewrite bool_decide_eq_true_2.
      - split; [done|]. intros ->. vm_compute in Hprio.
        by repeat (apply elem_of_cons in Hprio as [Hprio|Hprio]; [done|]);
          apply elem_of_nil in Hprio. }
    split; [|split].
    + intros k Hk. rewrite by_position_other.
      * rewrite by_priority_lookup, decide_False by by apply Hno.
        apply lookup_empty.
      * rewrite imap_pair_snd. done.
    + intros (k & Hk & Hprio). by destruct (Hnone k Hk).
    + intros _ i k Hik Hne. apply by_position_lookup; [| |done].
      * by rewrite imap_pair_snd.
      * apply elem_of_lookup_imap. eauto.
  - split; [|split].
    + intros k Hk. rewrite by_priority_lookup, decide_False by by apply Hno.
      apply lookup_empty.
    + intros _ k Hk Hne. by rewrite by_priority_lookup, decide_True.
    + intros Hnone. apply Nat.eqb_neq in Hcount. destruct Hcount.
      apply Nat.eqb_eq, visible_count_zero. intros k b.
      rewrite by_priority_lookup. case_decide as Hk; [|by rewrite lookup_empty].
      intros [= <-]. apply bool_decide_eq_false_2. apply Hnone. tauto.
Qed.

(** X8: the columns a load makes visible.  Every known field but
    [__proto__], and nothing else, gets an entry; when some known field is
    a priority column (indicator, title, tier, ladmLink, externalData) the
    entry of a field says whether it is a priority column; otherwise it
    says whether the field is among the first six known fields.  The name
    [__proto__] gets no entry and reads as visible. *)
Theorem visibleColumns_after_load (data : list JsonRecord) (st : state) :
  (forall k, k ∉ jsonKeys (processJsonData data st) \/ k = "__proto__" ->
             visibleColumns (processJsonData data st) !! k = None) /\
  ((exists k, k ∈ jsonKeys (processJsonData data st) /\ k ∈ priorityColumns) ->
   forall k, k ∈ jsonKeys (processJsonData data st) -> k <> "__proto__" ->
             visibleColumns (processJsonData data st) !! k
             = Some (bool_decide (k ∈ priorityColumns)) /\
             isVisible (processJsonData data st) k
             = bool_decide (k ∈ priorityColumns)) /\
  ((forall k, k ∈ jsonKeys (processJsonData data st) -> k ∉ priorityColumns) ->
   forall i k, jsonKeys (processJsonData data st) !! i = Some k ->
               k <> "__proto__" ->
               visibleColumns (processJsonData data st) !! k
               = Some (bool_decide (i < 6)%nat) /\
               isVisible (processJsonData data st) k
               = bool_decide (i < 6)%nat) /\
  isVisible (processJsonData data st) "__proto__" = true.
Proof.
  assert (forall k b, visibleColumns (processJsonData data st) !! k = Some b ->
            visibleColumns (processJsonData data st) !! k = Some b /\
            isVisible (processJsonData data st) k = b) as Hread.
  { intros k b Hk. split; [done|]. unfold isVisible, read_flag. by rewrite Hk. }
  assert (visibleColumns (processJsonData data st) !! "__proto__" = None ->
          isVisible (processJsonData data st) "__proto__" = true) as Hproto.
  { intros Hk. unfold isVisible, read_flag. by rewrite Hk. }
  destruct data as [|item data].
  { split; [intros; apply lookup_empty|].
    split; [by intros (k & Hk%elem_of_nil & _)|].
    split; [by intros _ i k Hk | done]. }
  assert (NoDup (allKeys (item :: data))) as Hnodup
    by apply collect_keys_NoDup, NoDup_nil_2.
  change (jsonKeys (processJsonData (item :: data) st))
    with (allKeys (item :: data)) in *.
  change (visibleColumns (processJsonData (item :: data) st))
    with (defaultVisible (allKeys (item :: data))) in *.
  destruct (defaultVisible_lookup _ Hnodup) as (Hnone & Hpriority & Hposition).
  split; [done|]. split; [|split].
  - intros Hsome k Hk Hne. by apply Hread, Hpriority.
  - intros Hno i k Hik Hne. by apply Hread, (Hposition Hno i).
  - apply Hproto, Hnone. by right.
Qed.

(** ** Writing a field of the draft *)

Lemma assoc_None_key (key : string) (props : list (string * json)) :
  key ∉ map fst props -> assoc key props = None.
Proof.
  induction props as [|[k x] props IH]; simpl; intros Hout; [done|].
  destruct (JsString.eqb k key) eqn:Hk.
  - apply eqb_true_iff in Hk as ->. destruct Hout. apply list_elem_of_here.
  - apply IH. intros Hin. apply Hout. by apply list_elem_of_further.
Qed.

Lemma eqb_false_iff (s t : string) : JsString.eqb s t = false <-> s <> t.
Proof. unfold JsString.eqb. apply bool_decide_eq_false. Qed.

Lemma replace_prop_keys (key : string) (v : json) (props : list (string * json)) :
  map fst (replace_prop key v props) = map fst props.
Proof.
  induction props as [|[k x] props IH]; simpl; [done|].
  destruct (JsString.eqb k key); simpl; [done | by rewrite IH].
Qed.

Lemma replace_prop_assoc (key k : string) (v : json)
    (props : list (string * json)) :
  key ∈ map fst props ->
  assoc k (replace_prop key v props)
  = if JsString.eqb key k then Some v else assoc k props.
Proof.
  induction props as [|[k' x] props IH]; simpl; intros Hin.
  - by apply elem_of_nil in Hin.
  - destruct (JsString.eqb k' key) eqn:Hk'; simpl.
    + apply eqb_true_iff in Hk' as ->. by destruct (JsString.eqb key k).
    + apply eqb_false_iff in Hk'.
      apply elem_of_cons in Hin as [->|Hin]; [done|].
      rewrite IH by done.
      destruct (JsString.eqb k' k) eqn:Hk'k; [|done].
      apply eqb_true_iff in Hk'k as ->.
      by rewrite (proj2 (eqb_false_iff key k)) by done.
Qed.

Lemma insert_index_assoc (n : N) (key k : string) (v : json)
    (props : list (string * json)) :
  key ∉ map fst props ->
  assoc k (insert_index n key v props)
  = if JsString.eqb key k then Some v else assoc k props.
Proof.
  induction props as [|[k' x] props IH]; simpl; intros Hout; [done|].
  assert (k' <> key) as Hne.
  { intros ->. apply Hout. apply list_elem_of_here. }
  assert (key ∉ map fst props) as Hout'.
  { intros Hin. apply Hout. by apply list_elem_of_further. }
  destruct (array_index k') as [m|]; [destruct (m <? n)%N|]; simpl; try done.
  rewrite IH by done.
  destruct (JsString.eqb k' k) eqn:Hk'k; [|done].
  apply eqb_true_iff in Hk'k as ->.
  by rewrite (proj2 (eqb_false_iff key k)) by done.
Qed.

Lemma append_prop_assoc (key k : string) (v : json)
    (props : list (string * json)) :
  key ∉ map fst props ->
  assoc k (props ++ [(key, v)])%list
  = if JsString.eqb key k then Some v else assoc k props.
Proof.
  induction props as [|[k' x] props IH]; simpl; intros Hout; [done|].
  assert (k' <> key) as Hne.
  { intros ->. apply Hout. apply list_elem_of_here. }
  rewrite IH by (intros Hin; apply Hout; by apply list_elem_of_further).
  destruct (JsString.eqb k' k) eqn:Hk'k; [|done].
  apply eqb_true_iff in Hk'k as ->.
  by rewrite (proj2 (eqb_false_iff key k)) by done.
Qed.

(** Reading after [set_prop]: the key written reads the new value, every
    other key reads as before. *)
Lemma set_prop_assoc (key k : string) (v : json) (props : list (string * json)) :
  assoc k (set_prop key v props)
  = if JsString.eqb key k then Some v else assoc k props.
Proof.
  unfold set_prop. case_bool_decide as Hin.
  - by apply replace_prop_assoc.
  - destruct (array_index key); [by apply insert_index_assoc|].
    by apply append_prop_assoc.
Qed.

Lemma eqb_refl (s : string) : JsString.eqb s s = true.
Proof. by apply eqb_true_iff. Qed.

(** X9: [updateEditingField] writes one field of the draft: the field reads
    the new value, every other field reads as before, a field the draft had
    keeps its place among the keys, and nothing but the draft changes. *)
Theorem updateEditingField_reads (key : string) (value : json) (st : state) :
  get (editingData (updateEditingField key value st)) key = Some value /\
  (forall k, k <> key ->
     get (editingData (updateEditingField key value st)) k
     = get (spread (editingData st)) k) /\
  (key ∈ Object_keys (spread (editingData st)) ->
   Object_keys (editingData (updateEditingField key value st))
   = Object_keys (spread (editingData st))) /\
  rows (updateEditingField key value st) = rows st /\
  editingRowId (updateEditingField key value st) = editingRowId st /\
  editedRows (updateEditingField key value st) = editedRows st.
Proof.
  assert (spread (editingData st) = JObj (own_props (editingData st))) as Hspread.
  { unfold own_props. by destruct (editingData st). }
  rewrite Hspread. simpl.
  split; [by rewrite set_prop_assoc, eqb_refl|].
  split; [|split; [|done]].
  - intros k Hk. rewrite set_prop_assoc.
    by rewrite (proj2 (eqb_false_iff key k)) by done.
  - intros Hin. unfold set_prop. rewrite bool_decide_eq_true_2 by done.
    apply replace_prop_keys.
Qed.

(** ** Committing an edit *)

Section CommitProperties.

Context `{JsNumberFormat}.

Lemma getRowId_nonempty (keys : list string) (r : JsonRecord) (i : Z) :
  JsString.nonempty (getRowId keys r i) = true.
Proof.
  unfold getRowId.
  by destruct (if truthy (get r "unsd_code") then _ else _).
Qed.

(** The position [saveEdit] finds for the identity of the row at [i] is
    [i]: no earlier row can have that identity. *)
Lemma saveEdit_position (keys : list string) (l : list JsonRecord)
    (r : JsonRecord) (i : nat) :
  l !! i = Some r ->
  findIndex (fun r' k => JsString.eqb (getRowId keys r' k)
                                      (getRowId keys r (Z.of_nat i))) l
  = Z.of_nat i.
Proof.
  intros Hi. unfold findIndex.
  rewrite (findIndex_from_first _ l 0 i r); [lia | done | apply eqb_refl |].
  intros j y Hj Hy. apply eqb_false_iff. intros Heq.
  apply getRowId_index_inj in Heq. lia.
Qed.

(** With the session open on the identity of the row at position [i],
    [saveEdit] writes the draft at [i]. *)
Lemma saveEdit_at_position (st : state) (r : JsonRecord) (i : nat) :
  rows st !! i = Some r ->
  editingRowId st = Some (getRowId (jsonKeys st) r (Z.of_nat i)) ->
  rows (saveEdit st) = <[i := editingData st]> (rows st) /\
  jsonData (saveEdit st) = <[i := editingData st]> (rows st) /\
  editedRows (saveEdit st)
  = {[getRowId (jsonKeys st) r (Z.of_nat i)]} ∪ editedRows st /\
  editingRowId (saveEdit st) = None /\
  editingData (saveEdit st) = JObj [].
Proof.
  intros Hi Hopen.
  unfold saveEdit. rewrite Hopen, getRowId_nonempty.
  rewrite (saveEdit_position _ _ _ _ Hi).
  destruct (Z.of_nat i =? -1)%Z eqn:Hneg; [apply Z.eqb_eq in Hneg; lia|].
  by rewrite Nat2Z.id.
Qed.

(** X10: [saveEdit], with the session open on the identity of the row at
    position [i], puts the draft at position [i] of the rows and of the
    exported data, keeps every other row, marks the identity as edited and
    closes the session. *)
Theorem saveEdit_commits (st : state) (r : JsonRecord) (i : nat) :
  rows st !! i = Some r ->
  editingRowId st = Some (getRowId (jsonKeys st) r (Z.of_nat i)) ->
  rows (saveEdit st) = <[i := editingData st]> (rows st) /\
  jsonData (saveEdit st) = <[i := editingData st]> (rows st) /\
  rows (saveEdit st) !! i = Some (editingData st) /\
  (forall j, j <> i -> rows (saveEdit st) !! j = rows st !! j) /\
  editedRows (saveEdit st)
  = {[getRowId (jsonKeys st) r (Z.of_nat i)]} ∪ editedRows st /\
  editingRowId (saveEdit st) = None /\
  editingData (saveEdit st) = JObj [].
Proof.
  intros Hi Hopen.
  destruct (saveEdit_at_position st r i Hi Hopen)
    as (Hrows & Hjson & Hedited & Hclosed & Hdraft).
  rewrite Hrows. split; [done|]. split; [done|].
  split; [apply list_lookup_insert_eq; by eapply lookup_lt_Some|].
  split; [intros j Hj; by apply list_lookup_insert_ne|].
  split; [exact Hedited|]. by split.
Qed.

(** X11: Edit on a row, a change of one field, Save: the field is changed
    in the first row whose JSON text is that of the row (the position the
    table computes its identity at), and every other row, a later copy of
    the same row included, stays as it is. *)
Theorem edit_change_save (st : state) (props : list (string * json))
    (key : string) (value : json) (i : nat) :
  rows st !! i = Some (JObj props) ->
  (forall (j : nat) r, (j < i)%nat -> rows st !! j = Some r ->
                       JSON_stringify r <> JSON_stringify (JObj props)) ->
  rows (saveEdit (updateEditingField key value (startEditing (JObj props) st)))
  = <[i := JObj (set_prop key value props)]> (rows st) /\
  (forall j, j <> i ->
     rows (saveEdit (updateEditingField key value
                       (startEditing (JObj props) st))) !! j = rows st !! j) /\
  (exists r', rows (saveEdit (updateEditingField key value
                                (startEditing (JObj props) st))) !! i = Some r' /\
              get r' key = Some value /\
              forall k, k <> key -> get r' k = get (JObj props) k) /\
  getRowId (jsonKeys st) (JObj props) (Z.of_nat i)
    ∈ editedRows (saveEdit (updateEditingField key value
                              (startEditing (JObj props) st))) /\
  editingRowId (saveEdit (updateEditingField key value
                            (startEditing (JObj props) st))) = None.
Proof.
  intros Hi Hfirst.
  pose proof (startEditing_identity st (JObj props) i Hi Hfirst) as Hid.
  set (st2 := updateEditingField key value (startEditing (JObj props) st)).
  assert (rows st2 = rows st) as Hrows2 by reflexivity.
  assert (jsonKeys st2 = jsonKeys st) as Hkeys2 by reflexivity.
  assert (editingData st2 = JObj (set_prop key value props)) as Hdraft
    by reflexivity.
  assert (editingRowId st2 = Some (getRowId (jsonKeys st2) (JObj props)
                                            (Z.of_nat i))) as Hopen
    by (rewrite Hkeys2; exact Hid).
  rewrite <- Hrows2 in Hi.
  destruct (saveEdit_at_position st2 (JObj props) i Hi Hopen)
    as (Hrows & _ & Hedited & Hclosed & _).
  rewrite Hdraft, Hrows2 in Hrows. rewrite Hrows2 in Hi.
  split; [exact Hrows|]. split; [|split; [|split]].
  - intros j Hj. rewrite Hrows. by apply list_lookup_insert_ne.
  - exists (JObj (set_prop key value props)).
    split; [rewrite Hrows; apply list_lookup_insert_eq; by eapply lookup_lt_Some|].
    simpl. split; [by rewrite set_prop_assoc, eqb_refl|].
    intros k Hk. rewrite set_prop_assoc.
    by rewrite (proj2 (eqb_false_iff key k)) by done.
  - rewrite Hedited, Hkeys2. by apply elem_of_union_l, elem_of_singleton.
  - exact Hclosed.
Qed.

End CommitProperties.

(** ** The input of an array field *)

Lemma startsWith_cons (a b : ascii) (s sub : string) :
  JsString.startsWith (String b s) (String a sub)
  = Ascii.eqb a b && JsString.startsWith s sub.
Proof. reflexivity. Qed.

Lemma startsWith_separator (rest : string) :
  JsString.startsWith (String "," (String " " rest)) ", " = true.
Proof. reflexivity. Qed.

Lemma startsWith_segment_false (c : ascii) (x rest : string) :
  JsString.startsWith (String c x) ", " = false ->
  JsString.startsWith (String c (x +:+ ", " +:+ rest)) ", " = false.
Proof.
  rewrite !startsWith_cons.
  destruct (Ascii.eqb "," c); [|done]. rewrite !andb_true_l.
  destruct x as [|d x]; [done|].
  rewrite str_app_cons, !startsWith_cons. by destruct (Ascii.eqb " " d).
Qed.

Lemma split_go_segment (x : string) :
  JsString.includes x ", " = false ->
  forall cur rest,
    split_go ", " 0 cur (x +:+ ", " +:+ rest)
    = (cur +:+ x) :: split_go ", " 0 "" rest.
Proof.
  induction x as [|c x IH]; intros Hx cur rest.
  - change ("" +:+ ", " +:+ rest) with (String "," (String " " rest)).
    cbn [split_go]. rewrite startsWith_separator.
    by rewrite str_app_nil_r.
  - cbn [JsString.includes] in Hx. apply orb_false_iff in Hx as [Hstart Hx].
    rewrite str_app_cons. cbn [split_go].
    rewrite (startsWith_segment_false c x rest Hstart).
    rewrite (IH Hx). by rewrite str_app_assoc.
Qed.

Lemma split_go_last (x : string) :
  JsString.includes x ", " = false ->
  forall cur, split_go ", " 0 cur x = [cur +:+ x].
Proof.
  induction x as [|c x IH]; intros Hx cur.
  - simpl. by rewrite str_app_nil_r.
  - pose proof Hx as Hx'. cbn [JsString.includes] in Hx'.
    apply orb_false_iff in Hx' as [Hstart Hx'].
    cbn [split_go]. rewrite Hstart, (IH Hx'). by rewrite str_app_assoc.
Qed.

Lemma split_concat (l : list string) :
  l <> [] -> (forall x, x ∈ l -> JsString.includes x ", " = false) ->
  split ", " (String.concat ", " l) = l.
Proof.
  induction l as [|x l IH]; intros Hne Hall; [done|].
  assert (JsString.includes x ", " = false) as Hx
    by apply Hall, list_elem_of_here.
  destruct l as [|y l].
  - simpl. unfold split. by rewrite split_go_last.
  - change (String.concat ", " (x :: y :: l))
      with (x +:+ ", " +:+ String.concat ", " (y :: l)).
    unfold split. rewrite split_go_segment by done. f_equal.
    apply IH; [done|]. intros z Hz. by apply Hall, list_elem_of_further.
Qed.

(** X12: the input of an array field gives back the array it shows: for an
    array of texts that are not empty and do not contain a comma followed by
    a space, splitting the shown text stores the same array in the draft. *)
Theorem arrayInput_round_trip `{JsNumberFormat} (l : list string)
    (key : string) (st : state) :
  (forall x, x ∈ l -> x <> "" /\ JsString.includes x ", " = false) ->
  List.filter JsString.nonempty (split ", " (arrayInputValue (map JStr l))) = l /\
  get (editingData (arrayInputChange key (arrayInputValue (map JStr l)) st)) key
  = Some (JArr (map JStr l)).
Proof.
  intros Hall.
  assert (arrayInputValue (map JStr l) = String.concat ", " l) as Hshown.
  { unfold arrayInputValue, join. f_equal. rewrite map_map. apply map_id. }
  assert (List.filter JsString.nonempty
            (split ", " (arrayInputValue (map JStr l))) = l) as Hback.
  { rewrite Hshown. destruct l as [|x l]; [done|].
    rewrite split_concat; [|done|intros z Hz; by apply Hall].
    apply filter_all. intros z Hz. apply nonempty_true_iff. by apply Hall. }
  split; [exact Hback|].
  unfold arrayInputChange. rewrite Hback. simpl.
  by rewrite set_prop_assoc, eqb_refl.
Qed.

(** ** What every reachable state satisfies *)

Section Reachability.

Context `{JsNumberFormat}.

Lemma page_invariant_initial : page_invariant initial.
Proof. split; [done|]. split; [done | by exists []]. Qed.

Lemma page_invariant_load (data : list JsonRecord) (st : state) :
  page_invariant st -> page_invariant (processJsonData data st).
Proof. intros (Hdata & Hid & Hdraft). by destruct data. Qed.

Lemma page_invariant_handle (st : state) (e : event) :
  page_invariant st -> page_invariant (handle st e).
Proof.
  intros Hinv. pose proof Hinv as (Hdata & Hid & Hdraft).
  destruct e as [fetched|text|key text|key| |data|file|rowData|key value| |
                 |shown|checked|key checked| ]; simpl; try done.
  - by apply page_invariant_load.
  - split; [done|]. split; [done | by exists []].
  - destruct (page_invariant_load data st Hinv) as (Hdata' & _ & _).
    split; [done|]. split; [done | by exists []].
  - destruct file as [[v|]|]; simpl; try done. by apply page_invariant_load.
  - split; [done|]. split.
    + intros id [= <-]. apply nonempty_true_iff, getRowId_nonempty.
    + unfold spread. destruct rowData; eauto.
  - split; [done|]. split; [done | eauto].
  - unfold saveEdit. destruct (editingRowId st) as [id|]; [|done].
    destruct (JsString.nonempty id); [|done].
    destruct (findIndex _ _ =? -1)%Z; simpl;
      (split; [done|]; split; [done | by exists []]).
  - split; [done|]. split; [done | by exists []].
  - unfold editingEnabledChange. destruct checked; simpl; [done|].
    split; [done|]. split; [done | by exists []].
Qed.

(** X13: whatever the user does from the mounted page, the exported data
    are the rows of the table, edits included; an open edit session has an
    identity that is not empty, so [saveEdit] never takes it for no
    session; and the draft is an object. *)
Theorem run_invariant (events : list event) :
  jsonData (run events) = rows (run events) /\
  dataToExport (run events) = rows (run events) /\
  (forall id, editingRowId (run events) = Some id -> id <> "") /\
  (exists props, editingData (run events) = JObj props).
Proof.
  assert (page_invariant (run events)) as (Hdata & Hid & Hdraft).
  { unfold run. induction events as [|e events IH] using rev_ind.
    - apply page_invariant_initial.
    - rewrite foldl_app. by apply page_invariant_handle. }
  split; [done|]. split; [|by split].
  unfold dataToExport. rewrite Hdata. by destruct (rows (run events)).
Qed.

End Reachability.

(** ** The rate calculator, continued *)

Section RatePipeline.

Import Rates AreaPipeline.

Context `{JsMath}.

Lemma Math_max_one_nan (d : float) :
  PrimFloat.is_nan (Math_max 1 d) = PrimFloat.is_nan d.
Proof.
  unfold Math_max.
  destruct (PrimFloat.is_nan d) eqn:Hnan; simpl; [reflexivity|].
  destruct (1 <? d)%float; [done|]. by destruct (d <? 1)%float.
Qed.

Lemma Math_max_one_ge (d : float) :
  PrimFloat.is_nan d = false -> (1 <=? Math_max 1 d)%float = true.
Proof.
  intros Hnan. unfold Math_max. rewrite Hnan. simpl.
  destruct (1 <? d)%float eqn:Hlt; [|by destruct (d <? 1)%float].
  rewrite FloatAxioms.ltb_spec in Hlt. rewrite FloatAxioms.leb_spec.
  unfold SFltb in Hlt. unfold SFleb.
  by destruct (SFcompare (Prim2SF 1) (Prim2SF d)) as [[]|].
Qed.

(** X14: the years [computeRates] divides by are at least one whenever the
    difference of the two time labels is a number, and are [NaN] only when
    that difference is. *)
Theorem years_at_least_one (areaT areaTN : float) (pop : PopPayload) :
  PrimFloat.is_nan (years (computeRates areaT areaTN pop))
  = PrimFloat.is_nan (t_n pop - t pop) /\
  (PrimFloat.is_nan (t_n pop - t pop) = false ->
   (1 <=? years (computeRates areaT areaTN pop))%float = true).
Proof.
  split; [apply Math_max_one_nan | apply Math_max_one_ge].
Qed.

(** X15: a feature collection without features has the area zero, and then
    the land consumption rate and the ratio are undefined whatever the other
    collection and the populations are; the growth rate does not depend on
    the areas: it is the same for any two pairs of collections, and for any
    two pairs of areas. *)
Theorem statsObj_empty_collection `{TurfArea Feature}
    (fc : list Feature) (pop : PopPayload) :
  area_t_m2 (statsObj [] fc pop) = 0%float /\
  lcr (statsObj [] fc pop) = None /\ ratio (statsObj [] fc pop) = None /\
  area_tn_m2 (statsObj fc [] pop) = 0%float /\
  lcr (statsObj fc [] pop) = None /\ ratio (statsObj fc [] pop) = None /\
  pgr (statsObj [] fc pop) = pgr (statsObj fc [] pop) /\
  (forall tFC tnFC tFC' tnFC' : list Feature,
     pgr (statsObj tFC tnFC pop) = pgr (statsObj tFC' tnFC' pop)) /\
  (forall areaT areaTN areaT' areaTN' : float,
     pgr (computeRates areaT areaTN pop)
     = pgr (computeRates areaT' areaTN' pop)).
Proof.
  unfold statsObj, computeRates. simpl.
  repeat (split; [reflexivity|]).
  rewrite andb_false_r. by repeat split.
Qed.

End RatePipeline.

(** ** Instances of the properties above *)

Lemma filtered_all_when_inactive_witness :
  @filtered integer_format ascii_lower_case native_code_text filter_typed_and_deleted
  = [row_a; row_b].
Proof.
  apply (@filtered_all_when_inactive integer_format ascii_lower_case native_code_text
           filter_typed_and_deleted).
  - reflexivity.
  - intros key pat Hlookup.
    change (columnFilters filter_typed_and_deleted)
      with (<["title" := ""]> (<["title" := "fir"]> (∅ : gmap string string)))
      in Hlookup.
    destruct (decide (key = "title")) as [->|Hne].
    + rewrite lookup_insert_eq in Hlookup. congruence.
    + by rewrite !lookup_insert_ne, lookup_empty in Hlookup.
Defined.

Lemma columnFilterChange_narrows_witness :
  @filtered integer_format ascii_lower_case native_code_text
    (columnFilterChange "title" "first" two_rows)
    `sublist_of` @filtered integer_format ascii_lower_case native_code_text two_rows.
Proof.
  apply (@columnFilterChange_narrows integer_format ascii_lower_case native_code_text
           two_rows "title" "first").
  left. reflexivity.
Defined.

Lemma search_refinement_narrows_witness :
  @filtered integer_format ascii_lower_case native_code_text (setQ "First r" searching_first)
    `sublist_of` @filtered integer_format ascii_lower_case native_code_text searching_first.
Proof.
  apply (@search_refinement_narrows integer_format ascii_lower_case native_code_text
           searching_first "First r").
  - discriminate.
  - exists "", " r". reflexivity.
Defined.

Lemma search_ignores_case_witness :
  @filtered integer_format ascii_lower_case native_code_text (setQ "FIRST" searching_first)
  = @filtered integer_format ascii_lower_case native_code_text searching_first.
Proof.
  apply (@search_ignores_case integer_format ascii_lower_case native_code_text
           searching_first "FIRST").
  - split; intros Hempty; vm_compute in Hempty; discriminate.
  - reflexivity.
Defined.

Lemma exactMatchClick_widens_witness :
  @filtered integer_format ascii_lower_case native_code_text exact_title_first
    `sublist_of` @filtered integer_format ascii_lower_case native_code_text
                   (exactMatchClick "title" exact_title_first).
Proof.
  apply (@exactMatchClick_widens integer_format ascii_lower_case native_code_text
           exact_title_first "title").
  - apply ascii_lower_case_keeps_spaces.
  - by vm_compute.
  - intros r items Hr Hget.
    change (rows exact_title_first) with [row_a; row_b] in Hr.
    apply elem_of_cons in Hr as [->|Hr]; [discriminate|].
    apply list_elem_of_singleton in Hr as ->. discriminate.
Defined.

(** The proviso of X6 is needed: [String(null)] is the text null, while
    [join] prints [null] as the empty text. *)
Lemma exact_mode_matches_null_element :
  @okColumnFilter integer_format ascii_lower_case native_code_text
     (exactMatchClick "tags" initial) null_tag_row ("tags", "null") = true /\
  @okColumnFilter integer_format ascii_lower_case native_code_text
     initial null_tag_row ("tags", "null") = false.
Proof. split; by vm_compute. Qed.

Lemma saveEdit_commits_witness :
  rows (@saveEdit integer_format editing_a) = [row_a; row_b] /\
  editedRows (@saveEdit integer_format editing_a) = {["a-0"]} ∪ ∅.
Proof.
  destruct (@saveEdit_commits integer_format editing_a row_a 0)
    as (Hrows & _ & _ & _ & Hedited & _).
  - reflexivity.
  - reflexivity.
  - split; [exact Hrows | exact Hedited].
Defined.

Lemma edit_change_save_witness :
  rows (@saveEdit integer_format
          (updateEditingField "title" (JStr "new")
             (@startEditing integer_format row_a twice_a)))
  = [JObj [("id", JStr "a"); ("title", JStr "new")]; row_b; row_a].
Proof.
  destruct (@edit_change_save integer_format twice_a
              [("id", JStr "a"); ("title", JStr "first")]
              "title" (JStr "new") 0) as (Hrows & _).
  - reflexivity.
  - intros j r Hj. lia.
  - exact Hrows.
Defined.

Lemma arrayInput_round_trip_witness :
  List.filter JsString.nonempty
    (split ", " (@arrayInputValue integer_format (map JStr ["a"; "b c"])))
  = ["a"; "b c"].
Proof.
  destruct (@arrayInput_round_trip integer_format ["a"; "b c"] "tags" editing_a)
    as [Hback _]; [|exact Hback].
  intros x Hx. apply elem_of_cons in Hx as [->|Hx]; [by split|].
  apply list_elem_of_singleton in Hx as ->. by split.
Defined.

(** ** The identity the table gives a row, and its marks *)

Section TableIdentity.

Context `{JsNumberFormat}.

Lemma originalIndex_first (st : state) (r : JsonRecord) (i : nat) :
  rows st !! i = Some r ->
  (forall (j : nat) r', (j < i)%nat -> rows st !! j = Some r' ->
                        JSON_stringify r' <> JSON_stringify r) ->
  originalIndex st r = Z.of_nat i.
Proof.
  intros Hi Hfirst. unfold originalIndex, findIndex.
  rewrite (findIndex_from_first _ (rows st) 0 i r); [lia | done | apply eqb_refl |].
  intros j r' Hj Hr'. apply eqb_false_iff. by eapply Hfirst.
Qed.

Lemma saveEdit_jsonKeys (st : state) : jsonKeys (saveEdit st) = jsonKeys st.
Proof.
  unfold saveEdit. destruct (editingRowId st) as [id|]; [|done].
  destruct (JsString.nonempty id); [|done].
  by destruct (findIndex _ _ =? -1)%Z.
Qed.

(** X16: the identity the table computes for a row is the positional
    identity of the first row with the same JSON text, and of no other
    position: a later copy of a row is shown under the identity of the
    first.  It is the identity [startEditing] opens the session on, so the
    row clicked is the row shown as being edited. *)
Theorem rowId_first_position (st : state) (r : JsonRecord) (i : nat) :
  rows st !! i = Some r ->
  (forall (j : nat) r', (j < i)%nat -> rows st !! j = Some r' ->
                        JSON_stringify r' <> JSON_stringify r) ->
  rowId st r = getRowId (jsonKeys st) r (Z.of_nat i) /\
  (forall j : nat, j <> i -> rowId st r <> getRowId (jsonKeys st) r (Z.of_nat j)) /\
  editingRowId (startEditing r st) = Some (rowId st r) /\
  isEditing (startEditing r st) r = true.
Proof.
  intros Hi Hfirst.
  assert (rowId st r = getRowId (jsonKeys st) r (Z.of_nat i)) as Hid.
  { unfold rowId. by rewrite (originalIndex_first st r i). }
  split; [exact Hid|]. split; [|split].
  - intros j Hj Heq. rewrite Hid in Heq.
    apply getRowId_index_inj in Heq. lia.
  - reflexivity.
  - apply bool_decide_eq_true_2. reflexivity.
Qed.

(** X17: Edit followed by Save with no change in between leaves the rows
    as they are, and yet the row bears the edited mark afterwards and is no
    longer shown as being edited. *)
Theorem save_unchanged_marks_edited (st : state) (props : list (string * json))
    (i : nat) :
  rows st !! i = Some (JObj props) ->
  (forall (j : nat) r', (j < i)%nat -> rows st !! j = Some r' ->
                        JSON_stringify r' <> JSON_stringify (JObj props)) ->
  rows (saveEdit (startEditing (JObj props) st)) = rows st /\
  jsonData (saveEdit (startEditing (JObj props) st)) = rows st /\
  isEdited (saveEdit (startEditing (JObj props) st)) (JObj props) = true /\
  isEditing (saveEdit (startEditing (JObj props) st)) (JObj props) = false.
Proof.
  intros Hi Hfirst.
  pose proof (startEditing_identity st (JObj props) i Hi Hfirst) as Hopen.
  destruct (saveEdit_at_position (startEditing (JObj props) st) (JObj props) i
              Hi Hopen) as (Hrows & Hjson & Hedited & Hclosed & _).
  assert (rows (saveEdit (startEditing (JObj props) st)) = rows st) as Hsame.
  { rewrite Hrows. by apply list_insert_id. }
  assert (<[i := editingData (startEditing (JObj props) st)]>
            (rows (startEditing (JObj props) st)) = rows st) as Hinsert.
  { by apply list_insert_id. }
  split; [exact Hsame|]. split; [by rewrite Hjson|]. split.
  - apply bool_decide_eq_true_2. unfold rowId.
    rewrite saveEdit_jsonKeys.
    rewrite (originalIndex_first _ (JObj props) i); [| by rewrite Hsame |].
    + rewrite Hedited. by apply elem_of_union_l, elem_of_singleton.
    + intros j r' Hj. rewrite Hsame. by apply Hfirst.
  - apply bool_decide_eq_false_2. by rewrite Hclosed.
Qed.

End TableIdentity.

(** ** The settings *)

Lemma show_all_lookup (keys : list string) (m0 : gmap string bool) (k : string) :
  foldl (fun (m : gmap string bool) key => assign_flag key true m) m0 keys !! k
  = if decide (k ∈ keys /\ k <> "__proto__") then Some true else m0 !! k.
Proof. exact (assign_flags_lookup (fun _ => true) keys m0 k). Qed.

(** X18: Show All makes the known fields visible and nothing else: every
    known field but [__proto__] gets the entry visible, whatever it was, and
    no other name keeps an entry; every known field then reads as visible,
    [__proto__] through the member it inherits. *)
Theorem showAllClick_visible (st : state) (k : string) :
  visibleColumns (showAllClick st) !! k
  = (if decide (k ∈ jsonKeys st /\ k <> "__proto__") then Some true else None) /\
  (k ∈ jsonKeys st -> isVisible (showAllClick st) k = true).
Proof.
  assert (visibleColumns (showAllClick st) !! k
          = if decide (k ∈ jsonKeys st /\ k <> "__proto__")
            then Some true else None) as Hentry.
  { unfold showAllClick. simpl. rewrite show_all_lookup.
    case_decide; [done | apply lookup_empty]. }
  split; [done|]. intros Hk. unfold isVisible, read_flag. rewrite Hentry.
  case_decide as Hown; [done|].
  destruct (decide (k = "__proto__")) as [->|Hne]; [done | tauto].
Qed.

Lemma forallb_agree {A : Type} (p p' : A -> bool) (l : list A) :
  (forall x, p x = p' x) -> forallb p l = forallb p' l.
Proof.
  intros Hagree. induction l as [|x l IH]; simpl; [done|].
  by rewrite Hagree, IH.
Qed.

(** X19: two clicks on the exact-match button of a column give the table
    of before. *)
Theorem exactMatchClick_twice `{JsNumberFormat} `{JsLowerCase}
    `{JsFunctionText} (st : state) (key : string) :
  filtered (exactMatchClick key (exactMatchClick key st)) = filtered st /\
  mode_of (exactMatchClick key (exactMatchClick key st)) key = mode_of st key.
Proof.
  assert (forall k,
    read_flag
      (columnExactMatch (exactMatchClick key (exactMatchClick key st))) k
    = read_flag (columnExactMatch st) k) as Htoggle.
  { intros k. simpl. destruct (decide (key = k)) as [->|Hne].
    - rewrite !read_flag_insert_eq. apply negb_involutive.
    - by rewrite !read_flag_insert_ne. }
  split.
  - unfold filtered. apply filter_agree. intros r _. f_equal.
    unfold okColumnFilters. simpl. apply forallb_agree. intros [k pat].
    unfold okColumnFilter. by rewrite Htoggle.
  - pose proof (Htoggle key) as Hkey. rewrite !exact_toggle in Hkey.
    by destruct (mode_of _ key), (mode_of st key).
Qed.

Lemma rowId_first_position_witness :
  @rowId integer_format twice_a row_a = "a-0" /\
  @isEditing integer_format (@startEditing integer_format row_a twice_a) row_a
  = true.
Proof.
  destruct (@rowId_first_position integer_format twice_a row_a 0)
    as (Hid & _ & _ & Hshown).
  - reflexivity.
  - intros j r' Hj. lia.
  - split; [exact Hid | exact Hshown].
Defined.

Lemma save_unchanged_marks_edited_witness :
  rows (@saveEdit integer_format (@startEditing integer_format row_a twice_a))
  = [row_a; row_b; row_a] /\
  @isEdited integer_format
     (@saveEdit integer_format (@startEditing integer_format row_a twice_a))
     row_a = true.
Proof.
  destruct (@save_unchanged_marks_edited integer_format twice_a
              [("id", JStr "a"); ("title", JStr "first")] 0)
    as (Hrows & _ & Hmark & _).
  - reflexivity.
  - intros j r' Hj. lia.
  - split; [exact Hrows | exact Hmark].
Defined.
